(** * String case conversion: toKebabCase, toCamelCase, toDotCase

    A shallow embedding of [src/chain_prompt.js] (toKebabCase) and
    [src/basic_prompt.js] (toCamelCase, toDotCase), and the properties
    the specification states about them.

    Strings.  A JavaScript string is a sequence of UTF-16 code units.
    This development covers the strings whose code units are below 256
    (U+0000 to U+00FF): such a string is a [string] of the Standard
    Library, a character standing for the code unit of the same number.
    On that range the character classes of the regular expressions and
    [toLowerCase] are the tables of the Unicode standard, written out
    below.

    Values.  The functions take any JavaScript value.  [value] has the
    kinds of values the source and the specification speak about:
    undefined, null, booleans, numbers that are safe integers, strings,
    plain objects with data properties of their own, and arrays.  The
    conversion of a value to a string, which the template literals of
    the error messages do, can itself throw, and is modelled so. *)

From Stdlib Require Import Bool List NArith ZArith Lia.
From Stdlib Require Import Ascii String DecimalString.
Import ListNotations.

Local Open Scope string_scope.
Local Open Scope bool_scope.

(** ** Characters *)

Module Char.

Definition code (c : ascii) : N := N_of_ascii c.

Definition in_range (lo hi : N) (c : ascii) : bool :=
  (lo <=? code c)%N && (code c <=? hi)%N.

(** [[A-Z]] *)
Definition is_upper (c : ascii) : bool := in_range 65 90 c.

(** [[a-z]] *)
Definition is_lower (c : ascii) : bool := in_range 97 122 c.

(** [[0-9]] *)
Definition is_digit (c : ascii) : bool := in_range 48 57 c.

Definition is_underscore (c : ascii) : bool := (code c =? 95)%N.

Definition is_hyphen (c : ascii) : bool := (code c =? 45)%N.

(** [\w], that is [[A-Za-z0-9_]]. *)
Definition is_word (c : ascii) : bool :=
  is_upper c || is_lower c || is_digit c || is_underscore c.

(** [\s], and the characters [trim] removes: TAB, LF, VT, FF, CR,
    SPACE and NO-BREAK SPACE are the ones below U+0100. *)
Definition is_space (c : ascii) : bool :=
  in_range 9 13 c || (code c =? 32)%N || (code c =? 160)%N.

(** The code points below U+0100 of general category P (punctuation):
    the ASCII ones (exclamation mark, quotation mark, number sign,
    percent sign, ampersand, apostrophe, parentheses, asterisk, comma,
    hyphen, full stop, solidus, colon, semicolon, question mark,
    commercial at, square brackets, reverse solidus, low line, curly
    brackets) and U+00A1, U+00A7, U+00AB, U+00B6, U+00B7, U+00BB,
    U+00BF.  The symbols (plus sign, equals sign, tilde, dollar sign,
    ...) are of category S and are not among them. *)
Definition punctuation : list N :=
  [33; 34; 35; 37; 38; 39; 40; 41; 42; 44; 45; 46; 47; 58; 59; 63; 64;
   91; 92; 93; 95; 123; 125; 161; 167; 171; 182; 183; 187; 191]%N.

(** [\p{P}] *)
Definition is_punct (c : ascii) : bool :=
  existsb (N.eqb (code c)) punctuation.

(** The character class [[\s\-_\p{P}]] of toDotCase. *)
Definition is_separator (c : ascii) : bool :=
  is_space c || is_hyphen c || is_underscore c || is_punct c.

(** The character class [[^\w\s-]] of toKebabCase. *)
Definition is_special (c : ascii) : bool :=
  negb (is_word c || is_space c || is_hyphen c).

(** The upper case letters below U+0100: A-Z, and U+00C0-U+00DE but
    U+00D7 (the multiplication sign).  They are the characters that
    [toLowerCase] changes, each to the code point 32 above it. *)
Definition is_uppercase (c : ascii) : bool :=
  is_upper c || in_range 192 214 c || in_range 216 222 c.

Definition to_lower (c : ascii) : ascii :=
  if is_uppercase c then ascii_of_N (code c + 32) else c.

(** The letters below U+0100: A-Z, a-z, U+00AA, U+00B5, U+00BA, and
    U+00C0-U+00FF but the multiplication and division signs. *)
Definition is_letter (c : ascii) : bool :=
  is_upper c || is_lower c
  || (code c =? 170)%N || (code c =? 181)%N || (code c =? 186)%N
  || in_range 192 214 c || in_range 216 246 c || in_range 248 255 c.

Definition is_dot (c : ascii) : bool := (code c =? 46)%N.

End Char.

(** ** Strings: the methods and regular-expression replacements used *)

Module Str.

Import Char.

Fixpoint map (f : ascii -> ascii) (s : string) : string :=
  match s with
  | "" => ""
  | String c r => String (f c) (map f r)
  end.

Fixpoint filter (keep : ascii -> bool) (s : string) : string :=
  match s with
  | "" => ""
  | String c r => if keep c then String c (filter keep r) else filter keep r
  end.

Fixpoint forallb (p : ascii -> bool) (s : string) : bool :=
  match s with
  | "" => true
  | String c r => p c && forallb p r
  end.

(** The first and the last character, when there is one. *)
Definition first (s : string) : option ascii :=
  match s with
  | "" => None
  | String c _ => Some c
  end.

Fixpoint last (s : string) : option ascii :=
  match s with
  | "" => None
  | String c "" => Some c
  | String _ r => last r
  end.

(** [s] has two [c] in a row somewhere. *)
Fixpoint has_double (c : ascii) (s : string) : bool :=
  match s with
  | String a (String b _ as r) =>
      (Ascii.eqb a c && Ascii.eqb b c) || has_double c r
  | _ => false
  end.

(** [c] occurs in [s]. *)
Fixpoint mem (c : ascii) (s : string) : bool :=
  match s with
  | "" => false
  | String a r => Ascii.eqb a c || mem c r
  end.

(** Removal of the longest prefix, respectively suffix, made of
    characters in [p]. *)
Fixpoint drop_start (p : ascii -> bool) (s : string) : string :=
  match s with
  | "" => ""
  | String c r => if p c then drop_start p r else s
  end.

Fixpoint drop_end (p : ascii -> bool) (s : string) : string :=
  match s with
  | "" => ""
  | String c r =>
      match drop_end p r with
      | "" => if p c then "" else String c ""
      | r' => String c r'
      end
  end.

(** [s.trim()] *)
Definition trim (s : string) : string :=
  drop_end is_space (drop_start is_space s).

(** [s.toLowerCase()] *)
Definition toLowerCase (s : string) : string := map to_lower s.

(** [s.replace(/_/g, ' ')] *)
Definition replace_underscores (s : string) : string :=
  map (fun c => if is_underscore c then " "%char else c) s.

(** [s.replace(/([a-z])([A-Z])/g, '$1 $2')]: the scan goes left to
    right; a match takes two characters and the scan goes on after
    them. *)
Fixpoint space_lower_upper (s : string) : string :=
  match s with
  | String a (String b r as t) =>
      if is_lower a && is_upper b
      then String a (String " " (String b (space_lower_upper r)))
      else String a (space_lower_upper t)
  | _ => s
  end.

(** [s.replace(/([A-Z])+/g, ' $&')]: a match is a longest run of upper
    case letters, and is replaced by a space and itself.  [in_run]
    says that the character before is part of the current match. *)
Fixpoint space_upper_runs (in_run : bool) (s : string) : string :=
  match s with
  | "" => ""
  | String c r =>
      if is_upper c
      then if in_run
           then String c (space_upper_runs true r)
           else String " " (String c (space_upper_runs true r))
      else String c (space_upper_runs false r)
  end.

(** [s.replace(/[^\w\s-]/g, '')] *)
Definition strip_special (s : string) : string :=
  filter (fun c => negb (is_special c)) s.

(** [s.replace(/\s+/g, by)] for a one-character [by]: a match is a
    longest run of white space.  [in_run] says that the character
    before is part of the current match. *)
Fixpoint replace_space_runs (by_ : ascii) (in_run : bool) (s : string)
  : string :=
  match s with
  | "" => ""
  | String c r =>
      if is_space c
      then if in_run
           then replace_space_runs by_ true r
           else String by_ (replace_space_runs by_ true r)
      else String c (replace_space_runs by_ false r)
  end.

(** [s.replace(/^-+|-+$/g, '')]: the first alternative matches only at
    index 0 and takes the whole run of hyphens there; the second one
    matches at the first index from which only hyphens follow up to
    the end. *)
Definition strip_edge_hyphens (s : string) : string :=
  drop_end is_hyphen (drop_start is_hyphen s).

(** [s.split(re)] for a regular expression [re] that matches the
    longest runs of characters in [sep] ([[...]+]): the pieces between
    the runs, an empty piece before a run at the start and after a run
    at the end.  [in_run] says that the character before is part of
    the current match. *)
Fixpoint split_runs (sep : ascii -> bool) (in_run : bool) (s : string)
  : list string :=
  match s with
  | "" => [""]
  | String c r =>
      if sep c
      then if in_run
           then split_runs sep true r
           else "" :: split_runs sep true r
      else match split_runs sep false r with
           | w :: ws => String c w :: ws
           | [] => [String c ""]
           end
  end.

(** [words.join(sep)] *)
Fixpoint join (sep : string) (ws : list string) : string :=
  match ws with
  | [] => ""
  | [w] => w
  | w :: rest => w ++ sep ++ join sep rest
  end.

End Str.

(** ** Values, [typeof] and conversion to a string *)

Set Warnings "-register-all".

(** A safe integer ([Number.isSafeInteger]): an integer of size at most
    2^53 - 1.  A number holds it exactly and prints it with all its
    decimal digits. *)
Record safe_integer : Type := SafeInteger {
  integer : Z;
  integer_safe : (Z.abs integer <=? 9007199254740991)%Z = true
}.

(** [VObject props] is an object with prototype [Object.prototype] and
    the data properties [props] of its own; [VArray elems] is an array
    with the elements [elems] and no other property of its own.  No
    value is a function. *)
Inductive value : Type :=
| VUndefined
| VNull
| VBool (b : bool)
| VNumber (n : safe_integer)
| VString (s : string)
| VObject (props : list (string * value))
| VArray (elems : list value).

(** The object has a property [key] of its own. *)
Definition has_own (key : string) (props : list (string * value)) : bool :=
  existsb (fun p => String.eqb (fst p) key) props.

(** [typeof v] *)
Definition typeof (v : value) : string :=
  match v with
  | VUndefined => "undefined"
  | VNull => "object"
  | VBool _ => "boolean"
  | VNumber _ => "number"
  | VString _ => "string"
  | VObject _ => "object"
  | VArray _ => "object"
  end.

(** The text a template literal puts for [${v}] (the abstract operation
    ToString), [None] when the conversion throws.
    - A safe integer prints its decimal digits.
    - An object is asked for its [toString] and then its [valueOf]
      method.  An object without a [toString] of its own inherits the
      one of [Object.prototype], which gives [[object Object]].  A
      [toString] of its own is no function here, and is passed over;
      [valueOf], its own or the inherited one that gives the object
      back, yields no primitive value either, and the conversion throws
      a TypeError.
    - An array is converted by [Array.prototype.join]: the texts of its
      elements with commas between, nothing for an element that is
      undefined or null; the conversion of an element may throw. *)
Fixpoint toString (v : value) : option string :=
  match v with
  | VUndefined => Some "undefined"
  | VNull => Some "null"
  | VBool true => Some "true"
  | VBool false => Some "false"
  | VNumber n => Some (NilZero.string_of_int (Z.to_int (integer n)))
  | VString s => Some s
  | VObject props =>
      if has_own "toString" props then None else Some "[object Object]"
  | VArray elems =>
      option_map (Str.join ",")
        ((fix texts (l : list value) : option (list string) :=
            match l with
            | [] => Some []
            | e :: rest =>
                match match e with
                      | VUndefined | VNull => Some ""
                      | _ => toString e
                      end with
                | Some t => option_map (cons t) (texts rest)
                | None => None
                end
            end) elems)
  end.

(** What a call ends in: a returned value or a thrown error.  Both
    errors are TypeErrors: the one the source makes with [new
    TypeError(message)], and the one the engine throws when a value has
    no conversion to a string, whose message is the engine's. *)
Inductive error : Type :=
| TypeError (message : string)
| ConversionTypeError.

Inductive completion : Type :=
| Return (v : value)
| Throw (e : error).

(** A call together with the lines it passed to [console.warn]. *)
Record run : Type := Run { warnings : list string; result : completion }.

(** ** src/chain_prompt.js *)

(** Lines 23-48 of [toKebabCase]: the input is a string. *)
Definition toKebabCase_text (input : string) : string :=
  if (String.length input =? 0)%nat then ""
  else
    let normalized :=
      Str.trim
        (Str.strip_special
           (Str.space_upper_runs false
              (Str.space_lower_upper
                 (Str.replace_underscores input)))) in
    let normalized := Str.replace_space_runs " " false normalized in
    let kebabCased :=
      Str.replace_space_runs "-" false (Str.toLowerCase normalized) in
    let kebabCased := Str.strip_edge_hyphens kebabCased in
    kebabCased.

Definition toKebabCase (input : value) : run :=
  match input with
  | VNull | VUndefined =>
      Run ["Input is null or undefined, returning empty string"]
          (Return (VString ""))
  | VString s => Run [] (Return (VString (toKebabCase_text s)))
  | _ =>
      Run [] (Throw
        match toString input with
        | Some text =>
            TypeError ("Expected string input, received " ++ typeof input
                       ++ ". Value: " ++ text)
        | None => ConversionTypeError
        end)
  end.

(** ** src/basic_prompt.js *)

(** The body of [toCamelCase] is a comment: the call returns
    undefined, whatever the argument. *)
Definition toCamelCase (str : value) : completion := Return VUndefined.

(** [toDotCase] once the input is known to be a string. *)
Definition toDotCase_text (input : string) : string :=
  let trimmed := Str.trim input in
  if (String.length trimmed =? 0)%nat then ""
  else
    let words :=
      List.filter (fun word => (0 <? String.length word)%nat)
        (Str.split_runs Char.is_separator false trimmed) in
    if (List.length words =? 0)%nat then ""
    else Str.join "." (List.map (fun word => Str.toLowerCase word) words).

Definition toDotCase (input : value) : completion :=
  match input with
  | VNull | VUndefined => Return (VString "")
  | VString s => Return (VString (toDotCase_text s))
  | _ =>
      Throw
        match toString input with
        | Some text =>
            TypeError ("Expected a string, null, or undefined, but received "
                       ++ typeof input ++ ": " ++ text)
        | None => ConversionTypeError
        end
  end.


(** ** The character classes the properties speak about *)

(** A lower case letter a-z, a digit or a hyphen. *)
Definition kebab_char (c : ascii) : bool :=
  Char.is_lower c || Char.is_digit c || Char.is_hyphen c.

(** What is left after the special characters are stripped: no special
    character and no underscore. *)
Definition kept (c : ascii) : bool :=
  negb (Char.is_special c) && negb (Char.is_underscore c).

(** A dot, or a character that is neither a separator of toDotCase
    (white space, hyphen, underscore, punctuation) nor an upper case
    letter. *)
Definition dot_char (c : ascii) : bool :=
  Char.is_dot c || (negb (Char.is_separator c) && negb (Char.is_uppercase c)).

(** A letter, a digit or the separator of the convention. *)
Definition letter_digit_or (sep : ascii -> bool) (c : ascii) : bool :=
  Char.is_letter c || Char.is_digit c || sep c.

(** A word of toDotCase's output: not empty, no separator, no upper case
    letter. *)
Definition dot_word (w : string) : bool :=
  (0 <? String.length w)%nat
  && Str.forallb (fun c => negb (Char.is_separator c)
                           && negb (Char.is_uppercase c)) w.

(** No upper case letter, no underscore, no white space. *)
Definition kebab_clean (c : ascii) : bool :=
  negb (Char.is_uppercase c) && negb (Char.is_underscore c)
  && negb (Char.is_space c).

(** A fragment between two dots: not empty and without a dot. *)
Definition fragment (w : string) : bool :=
  (0 <? String.length w)%nat
  && Str.forallb (fun c => negb (Ascii.eqb c ".")) w.





(** A dot, or a character that is no separator of toDotCase (neither
    white space, hyphen, underscore nor punctuation). *)
Definition dot_or_kept (c : ascii) : bool :=
  Char.is_dot c || negb (Char.is_separator c).

(** [f] gives for the string [x] a value that it gives back as it is. *)
Definition idempotent_at (f : value -> completion) (x : string) : Prop :=
  exists y, f (VString x) = Return y /\ f y = Return y.

(** ** What the further properties speak about *)

(** An ASCII letter or digit: [[A-Za-z0-9]]. *)
Definition is_alnum (c : ascii) : bool :=
  Char.is_upper c || Char.is_lower c || Char.is_digit c.

(** A lower case letter a-z or a digit. *)
Definition is_small (c : ascii) : bool := Char.is_lower c || Char.is_digit c.

(** White space or an underscore. *)
Definition is_blank (c : ascii) : bool :=
  Char.is_space c || Char.is_underscore c.

(** [toKebabCase] on a string without the test for the empty string,
    the replacement of line 34 (a space between a lower case and an
    upper case letter), [trim] and the replacement of line 40 (runs of
    white space to one space). *)
Definition toKebabCase_short (input : string) : string :=
  Str.strip_edge_hyphens
    (Str.replace_space_runs "-" false
       (Str.toLowerCase
          (Str.strip_special
             (Str.space_upper_runs false
                (Str.replace_underscores input))))).

(** [more_spaces s t]: [s] is [t] with more spaces, each of them put
    before a space of [t]. *)
Inductive more_spaces : string -> string -> Prop :=
| more_spaces_nil : more_spaces "" ""
| more_spaces_same c s t :
    more_spaces s t -> more_spaces (String c s) (String c t)
| more_spaces_extra s t :
    more_spaces s (String " " t) ->
    more_spaces (String " " s) (String " " t).

(** A string in kebab case: lower case letters, digits and hyphens, no
    hyphen at either end. *)
Definition is_kebab (y : string) : bool :=
  Str.forallb kebab_char y
  && match Str.first y with Some c => negb (Char.is_hyphen c) | None => true end
  && match Str.last y with Some c => negb (Char.is_hyphen c) | None => true end.

(** A word of lower case letters and digits, not empty. *)
Definition small_word (w : string) : bool :=
  (0 <? String.length w)%nat && Str.forallb is_small w.

(** A run of white space and underscores, not empty. *)
Definition blank_run (g : string) : bool :=
  (0 <? String.length g)%nat && Str.forallb is_blank g.

(** A word in camel case after the first: a run of upper case letters
    and then lower case letters and digits, neither part empty. *)
Definition capital_word (w : string * string) : bool :=
  (0 <? String.length (fst w))%nat && Str.forallb Char.is_upper (fst w)
  && small_word (snd w).

(** The words of a camel case identifier, written one after the other. *)
Fixpoint capitals (ws : list (string * string)) : string :=
  match ws with
  | [] => ""
  | (u, t) :: rest => u ++ t ++ capitals rest
  end.

(** The words of a camel case identifier in lower case: the first word
    [w0], if there is one, and the words after it. *)
Definition camel_words (w0 : string) (ws : list (string * string))
  : list string :=
  (if (String.length w0 =? 0)%nat then [] else [w0])
  ++ List.map (fun w => Str.toLowerCase (fst w ++ snd w)) ws.

(** The words one after the other, [by_] before each. *)
Fixpoint glue (by_ : string) (ws : list string) : string :=
  match ws with
  | [] => ""
  | w :: rest => by_ ++ w ++ glue by_ rest
  end.

(** The words [toDotCase] finds in a string: the pieces between the
    runs of separators that are not empty. *)
Definition dot_words (s : string) : list string :=
  List.filter (fun word => (0 <? String.length word)%nat)
    (Str.split_runs Char.is_separator false s).

(** A word with no separator of toDotCase in it, not empty. *)
Definition plain_word (w : string) : bool :=
  (0 <? String.length w)%nat
  && Str.forallb (fun c => negb (Char.is_separator c)) w.

(** A run of separators of toDotCase, not empty. *)
Definition separator_run (g : string) : bool :=
  (0 <? String.length g)%nat && Str.forallb Char.is_separator g.

(** * Properties *)

(** ** Characters: facts checked on each of the 256 code units *)

Ltac each_char c :=
  destruct c as [[] [] [] [] [] [] [] []]; vm_compute;
  try reflexivity; try discriminate; try (intros; discriminate).

Lemma to_lower_idem c : Char.to_lower (Char.to_lower c) = Char.to_lower c.
Proof. each_char c. Qed.

Lemma to_lower_fixed c :
  Char.is_uppercase c = false -> Char.to_lower c = c.
Proof. unfold Char.to_lower. intros ->. reflexivity. Qed.

Lemma is_uppercase_to_lower c : Char.is_uppercase (Char.to_lower c) = false.
Proof. each_char c. Qed.

Lemma is_separator_to_lower c :
  Char.is_separator (Char.to_lower c) = Char.is_separator c.
Proof. each_char c. Qed.

Lemma is_space_to_lower c : Char.is_space (Char.to_lower c) = Char.is_space c.
Proof. each_char c. Qed.

Lemma kept_to_lower c :
  Char.is_special c = false -> Char.is_underscore c = false ->
  Char.is_space c = false -> kebab_char (Char.to_lower c) = true.
Proof. each_char c. Qed.

Lemma kebab_char_plain c :
  kebab_char c = true ->
  Char.is_underscore c = false /\ Char.is_upper c = false
  /\ Char.is_uppercase c = false /\ Char.is_space c = false
  /\ Char.is_special c = false.
Proof. each_char c; intros _; repeat split. Qed.

Lemma kebab_char_claimed c :
  kebab_char c = true -> letter_digit_or Char.is_hyphen c = true.
Proof. each_char c. Qed.

Lemma space_is_separator c :
  Char.is_space c = true -> Char.is_separator c = true.
Proof. unfold Char.is_separator. intros ->. reflexivity. Qed.

Lemma is_dot_spec c : Char.is_dot c = true <-> c = "."%char.
Proof. split; [ each_char c | intros ->; reflexivity ]. Qed.

Lemma is_hyphen_spec c : Char.is_hyphen c = true <-> c = "-"%char.
Proof. split; [ each_char c | intros ->; reflexivity ]. Qed.

(** ** Strings: what each operation keeps *)

Section StringFacts.

Variables p q : ascii -> bool.

Lemma forallb_impl s :
  (forall c, p c = true -> q c = true) ->
  Str.forallb p s = true -> Str.forallb q s = true.
Proof.
  intros Hpq. induction s as [|c r IH]; simpl; [ reflexivity | ].
  intros [Hc Hr]%andb_prop. rewrite (Hpq _ Hc), (IH Hr). reflexivity.
Qed.

Lemma forallb_app s t :
  Str.forallb p (s ++ t) = Str.forallb p s && Str.forallb p t.
Proof.
  induction s as [|c r IH]; simpl; [ reflexivity | ].
  rewrite IH, andb_assoc. reflexivity.
Qed.

Lemma forallb_map f s :
  (forall c, p c = true -> q (f c) = true) ->
  Str.forallb p s = true -> Str.forallb q (Str.map f s) = true.
Proof.
  intros Hf. induction s as [|c r IH]; simpl; [ reflexivity | ].
  intros [Hc Hr]%andb_prop. rewrite (Hf _ Hc), (IH Hr). reflexivity.
Qed.

Lemma map_fixed f s :
  (forall c, p c = true -> f c = c) ->
  Str.forallb p s = true -> Str.map f s = s.
Proof.
  intros Hf. induction s as [|c r IH]; simpl; [ reflexivity | ].
  intros [Hc Hr]%andb_prop. rewrite (Hf _ Hc), (IH Hr). reflexivity.
Qed.

Lemma forallb_filter s : Str.forallb p (Str.filter p s) = true.
Proof.
  induction s as [|c r IH]; simpl; [ reflexivity | ].
  destruct (p c) eqn:Hc; simpl; [ rewrite Hc | ]; exact IH.
Qed.

Lemma forallb_filter_keeps s :
  Str.forallb p s = true -> Str.forallb p (Str.filter q s) = true.
Proof.
  induction s as [|c r IH]; simpl; [ reflexivity | ].
  intros [Hc Hr]%andb_prop.
  destruct (q c); simpl; [ rewrite Hc | ]; exact (IH Hr).
Qed.

Lemma filter_fixed s :
  (forall c, p c = true -> q c = true) ->
  Str.forallb p s = true -> Str.filter q s = s.
Proof.
  intros Hpq. induction s as [|c r IH]; simpl; [ reflexivity | ].
  intros [Hc Hr]%andb_prop. rewrite (Hpq _ Hc), (IH Hr). reflexivity.
Qed.

Lemma forallb_drop_start s :
  Str.forallb p s = true -> Str.forallb p (Str.drop_start q s) = true.
Proof.
  induction s as [|c r IH]; simpl; [ reflexivity | ].
  intros [Hc Hr]%andb_prop.
  destruct (q c); [ exact (IH Hr) | simpl; rewrite Hc; exact Hr ].
Qed.

Lemma forallb_drop_end s :
  Str.forallb p s = true -> Str.forallb p (Str.drop_end q s) = true.
Proof.
  induction s as [|c r IH]; simpl; [ reflexivity | ].
  intros [Hc Hr]%andb_prop. specialize (IH Hr).
  destruct (Str.drop_end q r) as [|d r'].
  - destruct (q c); simpl; [ | rewrite Hc ]; reflexivity.
  - change (p c && Str.forallb p (String d r') = true).
    rewrite Hc. exact IH.
Qed.

(** The first character left by [drop_start q] is not in [q]. *)
Lemma first_drop_start s c :
  Str.first (Str.drop_start q s) = Some c -> q c = false.
Proof.
  induction s as [|a r IH]; simpl; [ discriminate | ].
  destruct (q a) eqn:Ha; [ exact IH | ].
  simpl. intros [= <-]. exact Ha.
Qed.

(** The last character left by [drop_end q] is not in [q]. *)
Lemma last_drop_end s c :
  Str.last (Str.drop_end q s) = Some c -> q c = false.
Proof.
  revert c. induction s as [|a r IH]; simpl; [ discriminate | ].
  intros c. destruct (Str.drop_end q r) as [|d r'].
  - destruct (q a) eqn:Ha; simpl; [ discriminate | ].
    intros [= <-]. exact Ha.
  - intros H. apply IH. exact H.
Qed.

(** [drop_end q] leaves a first character only where it was. *)
Lemma first_drop_end s c :
  Str.first (Str.drop_end q s) = Some c -> Str.first s = Some c.
Proof.
  destruct s as [|a r]; simpl; [ discriminate | ].
  destruct (Str.drop_end q r); [ destruct (q a) | ]; simpl;
    congruence.
Qed.

Lemma drop_start_fixed s :
  (forall c, Str.first s = Some c -> q c = false) ->
  Str.drop_start q s = s.
Proof.
  destruct s as [|a r]; simpl; [ reflexivity | ].
  intros H. rewrite (H a eq_refl). reflexivity.
Qed.

Lemma drop_end_fixed s :
  (forall c, Str.last s = Some c -> q c = false) ->
  Str.drop_end q s = s.
Proof.
  induction s as [|a r IH]; simpl; [ reflexivity | ].
  destruct r as [|b r'].
  - intros H. simpl. rewrite (H a eq_refl). reflexivity.
  - intros H. rewrite (IH H). reflexivity.
Qed.

(** In a string with all characters in [p], so are the first and the
    last. *)
Lemma forallb_first s c :
  Str.forallb p s = true -> Str.first s = Some c -> p c = true.
Proof.
  destruct s as [|a r]; simpl; [ discriminate | ].
  intros [Ha _]%andb_prop [= <-]. exact Ha.
Qed.

Lemma forallb_last s c :
  Str.forallb p s = true -> Str.last s = Some c -> p c = true.
Proof.
  induction s as [|a r IH]; simpl; [ discriminate | ].
  intros [Ha Hr]%andb_prop. destruct r as [|b r'].
  - intros [= <-]. exact Ha.
  - apply IH. exact Hr.
Qed.

End StringFacts.

Lemma forallb_and p q s :
  Str.forallb (fun c => p c && q c) s = Str.forallb p s && Str.forallb q s.
Proof.
  induction s as [|c r IH]; simpl; [ reflexivity | ].
  rewrite IH. destruct (p c), (q c), (Str.forallb p r); reflexivity.
Qed.

(** Induction two characters at a time, as the scan of
    [space_lower_upper] goes. *)
Lemma string_pair_ind (P : string -> Prop) :
  P "" ->
  (forall a, P (String a "")) ->
  (forall a b r, P r -> P (String b r) -> P (String a (String b r))) ->
  forall s, P s.
Proof.
  intros H0 H1 H2 s.
  assert (H : P s /\ forall a, P (String a s)); [ | apply H ].
  induction s as [|b r [IHr IHbr]]; split; auto.
Qed.

(** ** toKebabCase, step by step *)

Lemma space_lower_upper_eq a b r :
  Str.space_lower_upper (String a (String b r)) =
  if Char.is_lower a && Char.is_upper b
  then String a (String " " (String b (Str.space_lower_upper r)))
  else String a (Str.space_lower_upper (String b r)).
Proof. reflexivity. Qed.

Section KebabSteps.

Variable p : ascii -> bool.
Hypothesis p_space : p " " = true.

Lemma forallb_space_lower_upper s :
  Str.forallb p s = true -> Str.forallb p (Str.space_lower_upper s) = true.
Proof.
  induction s as [| a | a b r IHr IHbr] using string_pair_ind;
    [ reflexivity | trivial | ].
  intros [Ha Hbr]%andb_prop. pose proof Hbr as [Hb Hr]%andb_prop.
  rewrite space_lower_upper_eq.
  destruct (Char.is_lower a && Char.is_upper b).
  - simpl. rewrite Ha, Hb, p_space, (IHr Hr). reflexivity.
  - change (p a && Str.forallb p (Str.space_lower_upper (String b r))
            = true).
    rewrite Ha. exact (IHbr Hbr).
Qed.

Lemma forallb_space_upper_runs s in_run :
  Str.forallb p s = true ->
  Str.forallb p (Str.space_upper_runs in_run s) = true.
Proof.
  revert in_run. induction s as [|c r IH]; intros in_run; simpl;
    [ reflexivity | ].
  intros [Hc Hr]%andb_prop.
  destruct (Char.is_upper c), in_run; simpl;
    rewrite ?p_space, Hc; simpl; apply IH; exact Hr.
Qed.

End KebabSteps.

Lemma forallb_replace_underscores s :
  Str.forallb (fun c => negb (Char.is_underscore c))
    (Str.replace_underscores s) = true.
Proof.
  unfold Str.replace_underscores.
  induction s as [|c r IH]; simpl; [ reflexivity | ].
  rewrite IH, andb_true_r.
  destruct (Char.is_underscore c) eqn:Hc; [ reflexivity | ].
  rewrite Hc. reflexivity.
Qed.

(** Replacing the runs of white space by [by_] leaves [by_] and the
    characters that are not white space. *)
Lemma forallb_replace_space_runs (p q : ascii -> bool) by_ s in_run :
  q by_ = true ->
  (forall c, p c = true -> Char.is_space c = false -> q c = true) ->
  Str.forallb p s = true ->
  Str.forallb q (Str.replace_space_runs by_ in_run s) = true.
Proof.
  intros Hby Hpq. revert in_run.
  induction s as [|c r IH]; intros in_run; simpl; [ reflexivity | ].
  intros [Hc Hr]%andb_prop.
  destruct (Char.is_space c) eqn:Hs.
  - destruct in_run; simpl; rewrite ?Hby; apply IH; exact Hr.
  - simpl. rewrite (Hpq _ Hc Hs). apply IH. exact Hr.
Qed.

Lemma normalized_kept input :
  Str.forallb kept
    (Str.trim
       (Str.strip_special
          (Str.space_upper_runs false
             (Str.space_lower_upper
                (Str.replace_underscores input))))) = true.
Proof.
  unfold Str.trim.
  apply forallb_drop_end, forallb_drop_start.
  unfold kept. rewrite forallb_and. apply andb_true_intro. split.
  - apply forallb_filter.
  - apply forallb_filter_keeps.
    apply forallb_space_upper_runs; [ reflexivity | ].
    apply forallb_space_lower_upper; [ reflexivity | ].
    apply forallb_replace_underscores.
Qed.

(** Every character of the output is a lower case letter a-z, a digit or
    a hyphen. *)
Lemma toKebabCase_text_chars input :
  Str.forallb kebab_char (toKebabCase_text input) = true.
Proof.
  unfold toKebabCase_text.
  destruct (String.length input =? 0)%nat; [ reflexivity | ].
  cbv zeta. unfold Str.strip_edge_hyphens.
  apply forallb_drop_end, forallb_drop_start.
  apply forallb_replace_space_runs
    with (p := fun c => kebab_char c || Char.is_space c).
  - reflexivity.
  - intros c H Hs. rewrite Hs, orb_false_r in H. exact H.
  - unfold Str.toLowerCase. apply forallb_map with (p := kept).
    + intros c [H1 H2]%andb_prop.
      rewrite is_space_to_lower.
      destruct (Char.is_space c) eqn:Hs; [ apply orb_true_r | ].
      rewrite kept_to_lower; auto using negb_true_iff.
      * now apply negb_true_iff.
      * now apply negb_true_iff.
    + apply forallb_replace_space_runs with (p := kept).
      * reflexivity.
      * auto.
      * apply normalized_kept.
Qed.

(** The output has no hyphen at either end. *)
Lemma toKebabCase_text_edges input c :
  Str.first (toKebabCase_text input) = Some c
  \/ Str.last (toKebabCase_text input) = Some c ->
  Char.is_hyphen c = false.
Proof.
  unfold toKebabCase_text.
  destruct (String.length input =? 0)%nat;
    [ simpl; intros [|]; discriminate | ].
  cbv zeta. unfold Str.strip_edge_hyphens. intros [H | H].
  - apply first_drop_end in H. eapply first_drop_start. exact H.
  - eapply last_drop_end. exact H.
Qed.

(** ** toKebabCase on a string that is already in kebab case *)

Lemma space_lower_upper_fixed s :
  Str.forallb (fun c => negb (Char.is_upper c)) s = true ->
  Str.space_lower_upper s = s.
Proof.
  induction s as [| a | a b r IHr IHbr] using string_pair_ind;
    [ reflexivity | reflexivity | ].
  intros [Ha Hbr]%andb_prop. pose proof Hbr as [Hb Hr]%andb_prop.
  rewrite space_lower_upper_eq.
  apply negb_true_iff in Hb. rewrite Hb, andb_false_r.
  rewrite (IHbr Hbr). reflexivity.
Qed.

Lemma space_upper_runs_fixed s in_run :
  Str.forallb (fun c => negb (Char.is_upper c)) s = true ->
  Str.space_upper_runs in_run s = s.
Proof.
  revert in_run. induction s as [|c r IH]; intros in_run; simpl;
    [ reflexivity | ].
  intros [Hc Hr]%andb_prop. apply negb_true_iff in Hc.
  rewrite Hc, (IH _ Hr). reflexivity.
Qed.

Lemma replace_space_runs_fixed by_ s in_run :
  Str.forallb (fun c => negb (Char.is_space c)) s = true ->
  Str.replace_space_runs by_ in_run s = s.
Proof.
  revert in_run. induction s as [|c r IH]; intros in_run; simpl;
    [ reflexivity | ].
  intros [Hc Hr]%andb_prop. apply negb_true_iff in Hc.
  rewrite Hc, (IH _ Hr). reflexivity.
Qed.

Lemma trim_fixed s :
  Str.forallb (fun c => negb (Char.is_space c)) s = true -> Str.trim s = s.
Proof.
  intros H. unfold Str.trim.
  rewrite drop_start_fixed.
  - apply drop_end_fixed. intros c Hc.
    apply negb_true_iff. exact (forallb_last _ _ _ H Hc).
  - intros c Hc. apply negb_true_iff. exact (forallb_first _ _ _ H Hc).
Qed.

Lemma toKebabCase_text_fixed y :
  Str.forallb kebab_char y = true ->
  (forall c, Str.first y = Some c \/ Str.last y = Some c ->
             Char.is_hyphen c = false) ->
  toKebabCase_text y = y.
Proof.
  intros Hy Hedge. unfold toKebabCase_text.
  destruct y as [|a r] eqn:Ey; [ reflexivity | ]. rewrite <- Ey in *.
  replace (String.length y =? 0)%nat with false by (subst y; reflexivity).
  cbv zeta.
  assert (Hnu : Str.replace_underscores y = y).
  { apply map_fixed with (p := kebab_char); [ | exact Hy ].
    intros c Hc. apply kebab_char_plain in Hc as (-> & _). reflexivity. }
  assert (Hup : Str.forallb (fun c => negb (Char.is_upper c)) y = true).
  { apply forallb_impl with (p := kebab_char); [ | exact Hy ].
    intros c Hc. apply kebab_char_plain in Hc as (_ & -> & _). reflexivity. }
  assert (Hsp : Str.forallb (fun c => negb (Char.is_space c)) y = true).
  { apply forallb_impl with (p := kebab_char); [ | exact Hy ].
    intros c Hc. apply kebab_char_plain in Hc as (_ & _ & _ & -> & _).
    reflexivity. }
  rewrite Hnu, (space_lower_upper_fixed _ Hup), (space_upper_runs_fixed _ _ Hup).
  assert (Hst : Str.strip_special y = y).
  { apply filter_fixed with (p := kebab_char); [ | exact Hy ].
    intros c Hc. apply kebab_char_plain in Hc as (_ & _ & _ & _ & ->).
    reflexivity. }
  rewrite Hst, (trim_fixed _ Hsp), (replace_space_runs_fixed _ _ _ Hsp).
  assert (Hlo : Str.toLowerCase y = y).
  { apply map_fixed with (p := kebab_char); [ | exact Hy ].
    intros c Hc. apply to_lower_fixed.
    apply kebab_char_plain in Hc as (_ & _ & -> & _). reflexivity. }
  rewrite Hlo, (replace_space_runs_fixed _ _ _ Hsp).
  unfold Str.strip_edge_hyphens. rewrite drop_start_fixed.
  - apply drop_end_fixed. intros c Hc. apply Hedge. right. exact Hc.
  - intros c Hc. apply Hedge. left. exact Hc.
Qed.

Lemma toKebabCase_text_idem input :
  toKebabCase_text (toKebabCase_text input) = toKebabCase_text input.
Proof.
  apply toKebabCase_text_fixed.
  - apply toKebabCase_text_chars.
  - apply toKebabCase_text_edges.
Qed.

(** ** toDotCase, step by step *)

Section SplitFacts.

Variable sep : ascii -> bool.

Let plain (c : ascii) : bool := negb (sep c).

Lemma split_runs_not_nil s in_run : Str.split_runs sep in_run s <> [].
Proof.
  revert in_run. induction s as [|c r IH]; intros in_run; simpl;
    [ discriminate | ].
  destruct (sep c); [ destruct in_run; [ apply IH | discriminate ] | ].
  destruct (Str.split_runs sep false r); discriminate.
Qed.

(** No piece has a separator in it. *)
Lemma split_runs_pieces s in_run w :
  In w (Str.split_runs sep in_run s) -> Str.forallb plain w = true.
Proof.
  revert in_run w. induction s as [|c r IH]; intros in_run w; simpl.
  - intros [<- | []]. reflexivity.
  - destruct (sep c) eqn:Hc.
    + destruct in_run; [ apply IH | ].
      intros [<- | H]; [ reflexivity | exact (IH _ _ H) ].
    + specialize (IH false).
      destruct (Str.split_runs sep false r) as [|w0 ws].
      * intros [<- | []]. simpl. unfold plain. rewrite Hc. reflexivity.
      * intros [<- | H].
        -- simpl. unfold plain at 1. rewrite Hc. simpl.
           apply IH. left. reflexivity.
        -- apply IH. right. exact H.
Qed.

(** After a character that is no separator it does not matter whether
    a match was under way. *)
Lemma split_runs_plain_start c r in_run :
  sep c = false ->
  Str.split_runs sep in_run (String c r)
  = Str.split_runs sep false (String c r).
Proof. intros H. simpl. rewrite H. reflexivity. Qed.

(** A string with no separator is one piece. *)
Lemma split_runs_word w :
  Str.forallb plain w = true -> Str.split_runs sep false w = [w].
Proof.
  induction w as [|c r IH]; simpl; [ reflexivity | ].
  intros [Hc Hr]%andb_prop. apply negb_true_iff in Hc.
  rewrite Hc, (IH Hr). reflexivity.
Qed.

(** A word, then a separator: the word is the first piece. *)
Lemma split_runs_app w d r :
  Str.forallb plain w = true -> sep d = true ->
  Str.split_runs sep false (w ++ String d r)
  = w :: Str.split_runs sep true r.
Proof.
  intros Hw Hd. induction w as [|c w' IH]; simpl.
  - rewrite Hd. reflexivity.
  - simpl in Hw. apply andb_prop in Hw as [Hc Hw'].
    apply negb_true_iff in Hc. rewrite Hc, (IH Hw'). reflexivity.
Qed.

End SplitFacts.

Lemma first_join sep w rest :
  w <> "" -> Str.first (Str.join sep (w :: rest)) = Str.first w.
Proof.
  destruct w as [|c r]; [ congruence | ].
  intros _. destruct rest; reflexivity.
Qed.

Lemma join_cons sep w w' rest :
  Str.join sep (w :: w' :: rest) = w ++ sep ++ Str.join sep (w' :: rest).
Proof. reflexivity. Qed.

Lemma forallb_join p sep ws :
  Str.forallb p sep = true ->
  (forall w, In w ws -> Str.forallb p w = true) ->
  Str.forallb p (Str.join sep ws) = true.
Proof.
  intros Hsep. induction ws as [|w rest IH]; [ reflexivity | ].
  intros Hws. destruct rest as [|w' rest].
  - apply Hws. left. reflexivity.
  - rewrite join_cons, !forallb_app, Hsep, (Hws w (or_introl eq_refl)).
    apply IH. intros x Hx. apply Hws. right. exact Hx.
Qed.

(** What [dot_word] says, piece by piece. *)
Lemma dot_word_spec w :
  dot_word w = true <->
  w <> "" /\ Str.forallb (fun c => negb (Char.is_separator c)) w = true
  /\ Str.forallb (fun c => negb (Char.is_uppercase c)) w = true.
Proof.
  unfold dot_word. rewrite forallb_and, !andb_true_iff.
  destruct w as [|c r].
  - change (0 <? String.length "")%nat with false. intuition congruence.
  - change (0 <? String.length (String c r))%nat with true.
    intuition congruence.
Qed.

(** Splitting the words joined by dots gives the words back. *)
Lemma split_runs_join ws :
  ws <> [] -> (forall w, In w ws -> dot_word w = true) ->
  Str.split_runs Char.is_separator false (Str.join "." ws) = ws.
Proof.
  induction ws as [|w rest IH]; [ congruence | ].
  intros _ Hws.
  destruct (proj1 (dot_word_spec w) (Hws w (or_introl eq_refl)))
    as (_ & Hw & _).
  destruct rest as [|w' rest].
  - apply split_runs_word. exact Hw.
  - rewrite join_cons. change ("." ++ ?t) with (String "." t).
    rewrite split_runs_app by (exact Hw || reflexivity).
    f_equal.
    assert (Hrest : forall x, In x (w' :: rest) -> dot_word x = true)
      by (intros x Hx; apply Hws; right; exact Hx).
    destruct (proj1 (dot_word_spec w') (Hrest w' (or_introl eq_refl)))
      as (Hne & Hw' & _).
    pose proof (first_join "." w' rest Hne) as Hfirst.
    destruct (Str.join "." (w' :: rest)) as [|c r] eqn:Ej.
    + destruct w'; [ congruence | discriminate ].
    + rewrite split_runs_plain_start.
      * apply IH; [ discriminate | exact Hrest ].
      * apply negb_true_iff.
        apply (forallb_first _ w' c Hw'). rewrite <- Hfirst. reflexivity.
Qed.

Lemma length_map f s : String.length (Str.map f s) = String.length s.
Proof. induction s as [|c r IH]; simpl; congruence. Qed.

Lemma dot_word_toLowerCase w :
  (0 <? String.length w)%nat = true ->
  Str.forallb (fun c => negb (Char.is_separator c)) w = true ->
  dot_word (Str.toLowerCase w) = true.
Proof.
  intros Hlen Hw. unfold dot_word, Str.toLowerCase.
  rewrite length_map, Hlen. simpl.
  apply forallb_map with (p := fun c => negb (Char.is_separator c));
    [ | exact Hw ].
  intros c Hc. rewrite is_separator_to_lower, Hc, is_uppercase_to_lower.
  reflexivity.
Qed.

(** The output is made of words joined by dots. *)
Lemma toDotCase_text_words input :
  exists ws, toDotCase_text input = Str.join "." ws
             /\ List.forallb dot_word ws = true.
Proof.
  unfold toDotCase_text.
  destruct (String.length (Str.trim input) =? 0)%nat;
    [ exists []; split; reflexivity | ].
  cbv zeta.
  set (words := List.filter _ _).
  destruct (List.length words =? 0)%nat;
    [ exists []; split; reflexivity | ].
  exists (List.map (fun word => Str.toLowerCase word) words).
  split; [ reflexivity | ].
  apply forallb_forall. intros w [w0 [<- Hw0]]%in_map_iff.
  apply filter_In in Hw0 as [Hin Hlen].
  apply dot_word_toLowerCase; [ exact Hlen | ].
  exact (split_runs_pieces _ _ _ _ Hin).
Qed.

Lemma filter_all {A} (f : A -> bool) l :
  List.forallb f l = true -> List.filter f l = l.
Proof.
  induction l as [|x l IH]; simpl; [ reflexivity | ].
  intros [Hx Hl]%andb_prop. rewrite Hx, (IH Hl). reflexivity.
Qed.

Lemma map_all_fixed {A} (f : A -> A) l :
  (forall x, In x l -> f x = x) -> List.map f l = l.
Proof.
  induction l as [|x l IH]; simpl; [ reflexivity | ].
  intros H. rewrite (H x (or_introl eq_refl)), IH; [ reflexivity | ].
  intros y Hy. apply H. right. exact Hy.
Qed.

(** toDotCase gives back words joined by dots as they are. *)
Lemma toDotCase_text_fixed ws :
  List.forallb dot_word ws = true ->
  toDotCase_text (Str.join "." ws) = Str.join "." ws.
Proof.
  intros Hall. pose proof (proj1 (forallb_forall _ _) Hall) as Hws.
  destruct ws as [|w rest]; [ reflexivity | ].
  set (ws := w :: rest) in *.
  assert (Hsp : Str.forallb (fun c => negb (Char.is_space c))
                  (Str.join "." ws) = true).
  { apply forallb_join; [ reflexivity | ].
    intros x Hx. apply Hws, dot_word_spec in Hx as (_ & Hx & _).
    revert Hx. apply forallb_impl. intros c Hc.
    apply negb_true_iff. apply negb_true_iff in Hc.
    destruct (Char.is_space c) eqn:Hs; [ | reflexivity ].
    rewrite (space_is_separator _ Hs) in Hc. discriminate. }
  unfold toDotCase_text. rewrite (trim_fixed _ Hsp).
  assert (Hlen : (String.length (Str.join "." ws) =? 0)%nat = false).
  { pose proof (Hws w (or_introl eq_refl)) as (Hne & _)%dot_word_spec.
    pose proof (first_join "." w rest Hne) as Hf. fold ws in Hf.
    destruct (Str.join "." ws); [ | reflexivity ].
    destruct w; [ congruence | discriminate ]. }
  rewrite Hlen. cbv zeta.
  rewrite split_runs_join by (assumption || discriminate).
  rewrite filter_all.
  - change (List.length ws =? 0)%nat with false. cbv iota.
    rewrite map_all_fixed; [ reflexivity | ].
    intros x Hx. apply Hws, dot_word_spec in Hx as (_ & _ & Hx).
    apply map_fixed with (p := fun c => negb (Char.is_uppercase c));
      [ | exact Hx ].
    intros c Hc. apply to_lower_fixed, negb_true_iff, Hc.
  - apply forallb_forall. intros x Hx.
    apply Hws in Hx. unfold dot_word in Hx.
    apply andb_prop in Hx as [Hx _]. exact Hx.
Qed.

Lemma toDotCase_text_idem input :
  toDotCase_text (toDotCase_text input) = toDotCase_text input.
Proof.
  destruct (toDotCase_text_words input) as (ws & -> & Hws).
  apply toDotCase_text_fixed. exact Hws.
Qed.

(** ** Where the dots of toDotCase's output are *)

Lemma is_separator_dot c :
  Char.is_separator c = false -> Ascii.eqb c "." = false.
Proof. each_char c. Qed.

Lemma last_app s t : t <> "" -> Str.last (s ++ t) = Str.last t.
Proof.
  intros Ht. induction s as [|c r IH]; [ reflexivity | ].
  simpl. rewrite IH. destruct (r ++ t) eqn:E; [ | reflexivity ].
  destruct r; simpl in E; congruence.
Qed.

Lemma has_double_eq d a b r :
  Str.has_double d (String a (String b r))
  = (Ascii.eqb a d && Ascii.eqb b d) || Str.has_double d (String b r).
Proof. reflexivity. Qed.

Lemma has_double_cons d a s :
  Ascii.eqb a d = false ->
  Str.has_double d (String a s) = Str.has_double d s.
Proof. intros H. destruct s; simpl; [ | rewrite H ]; reflexivity. Qed.

Lemma has_double_app d w t :
  Str.forallb (fun c => negb (Ascii.eqb c d)) w = true ->
  Str.has_double d (w ++ t) = Str.has_double d t.
Proof.
  induction w as [|a r IH]; [ reflexivity | ].
  simpl Str.forallb. intros [Ha Hr]%andb_prop. apply negb_true_iff in Ha.
  change (String a r ++ t) with (String a (r ++ t)).
  rewrite (has_double_cons _ _ _ Ha). exact (IH Hr).
Qed.

Lemma has_double_plain d w :
  Str.forallb (fun c => negb (Ascii.eqb c d)) w = true ->
  Str.has_double d w = false.
Proof.
  induction w as [|a r IH]; [ reflexivity | ].
  simpl Str.forallb. intros [Ha Hr]%andb_prop. apply negb_true_iff in Ha.
  rewrite (has_double_cons _ _ _ Ha). exact (IH Hr).
Qed.

Lemma dot_word_no_dot w :
  dot_word w = true ->
  Str.forallb (fun c => negb (Ascii.eqb c ".")) w = true.
Proof.
  intros (_ & Hw & _)%dot_word_spec. revert Hw. apply forallb_impl.
  intros c Hc. apply negb_true_iff in Hc.
  rewrite (is_separator_dot _ Hc). reflexivity.
Qed.

Section JoinedWords.

Variable ws : list string.
Hypothesis ws_words : List.forallb dot_word ws = true.

Let word_in w : In w ws -> dot_word w = true :=
  proj1 (forallb_forall dot_word ws) ws_words w.

Lemma joined_chars : Str.forallb dot_char (Str.join "." ws) = true.
Proof.
  apply forallb_join; [ reflexivity | ].
  intros w Hw. apply word_in in Hw. unfold dot_word in Hw.
  apply andb_prop in Hw as [_ Hw]. revert Hw. apply forallb_impl.
  intros c Hc. unfold dot_char. rewrite Hc. apply orb_true_r.
Qed.

Lemma joined_first c :
  Str.first (Str.join "." ws) = Some c -> Ascii.eqb c "." = false.
Proof.
  clear word_in. destruct ws as [|w rest]; [ discriminate | ].
  simpl in ws_words. apply andb_prop in ws_words as [Hw _].
  pose proof (dot_word_no_dot _ Hw) as Hplain.
  apply dot_word_spec in Hw as (Hne & _).
  rewrite (first_join _ _ _ Hne). intros Hc.
  apply negb_true_iff. exact (forallb_first _ _ _ Hplain Hc).
Qed.

Lemma joined_last c :
  Str.last (Str.join "." ws) = Some c -> Ascii.eqb c "." = false.
Proof.
  clear word_in. induction ws as [|w rest IH]; [ discriminate | ].
  simpl in ws_words. apply andb_prop in ws_words as [Hw Hrest].
  destruct rest as [|w' rest].
  - intros Hc. apply negb_true_iff.
    exact (forallb_last _ _ _ (dot_word_no_dot _ Hw) Hc).
  - rewrite join_cons, last_app.
    + rewrite last_app; [ exact (IH Hrest) | ].
      simpl in Hrest. apply andb_prop in Hrest as [Hw' _].
      apply dot_word_spec in Hw' as (Hne & _).
      pose proof (first_join "." _ rest Hne) as Hf.
      destruct (Str.join "." (w' :: rest)); [ | discriminate ].
      destruct w'; [ congruence | discriminate ].
    + discriminate.
Qed.

Lemma joined_no_double : Str.has_double "." (Str.join "." ws) = false.
Proof.
  clear word_in. induction ws as [|w rest IH]; [ reflexivity | ].
  simpl in ws_words. apply andb_prop in ws_words as [Hw Hrest].
  destruct rest as [|w' rest].
  - apply has_double_plain, dot_word_no_dot, Hw.
  - rewrite join_cons, has_double_app by (apply dot_word_no_dot, Hw).
    specialize (IH Hrest).
    assert (Hf : forall c, Str.first (Str.join "." (w' :: rest)) = Some c
                           -> Ascii.eqb c "." = false).
    { simpl in Hrest. apply andb_prop in Hrest as [Hw' _].
      pose proof (dot_word_no_dot _ Hw') as Hplain.
      apply dot_word_spec in Hw' as (Hne & _).
      rewrite (first_join _ _ _ Hne). intros c Hc.
      apply negb_true_iff. exact (forallb_first _ _ _ Hplain Hc). }
    destruct (Str.join "." (w' :: rest)) as [|c r]; [ reflexivity | ].
    change ("." ++ String c r) with (String "."%char (String c r)).
    rewrite has_double_eq, (Hf c eq_refl), andb_false_r.
    exact IH.
Qed.

End JoinedWords.

(** ** Blank input *)

Lemma drop_start_all p s :
  Str.forallb p s = true -> Str.drop_start p s = "".
Proof.
  induction s as [|c r IH]; simpl; [ reflexivity | ].
  intros [Hc Hr]%andb_prop. rewrite Hc. exact (IH Hr).
Qed.

Lemma trim_blank s : Str.forallb Char.is_space s = true -> Str.trim s = "".
Proof. intros H. unfold Str.trim. rewrite (drop_start_all _ _ H). reflexivity. Qed.

Lemma is_space_plain c :
  Char.is_space c = true ->
  Char.is_underscore c = false /\ Char.is_upper c = false
  /\ Char.is_special c = false.
Proof. each_char c; intros _; repeat split. Qed.

(** toKebabCase gives the empty string for a string of white space. *)
Lemma toKebabCase_text_blank s :
  Str.forallb Char.is_space s = true -> toKebabCase_text s = "".
Proof.
  intros H. unfold toKebabCase_text.
  destruct (String.length s =? 0)%nat; [ reflexivity | ]. cbv zeta.
  assert (Hup : Str.forallb (fun c => negb (Char.is_upper c)) s = true).
  { revert H. apply forallb_impl. intros c Hc.
    apply is_space_plain in Hc as (_ & -> & _). reflexivity. }
  unfold Str.replace_underscores. rewrite (map_fixed Char.is_space);
    [ | intros c Hc; apply is_space_plain in Hc as (-> & _); reflexivity
      | exact H ].
  rewrite (space_lower_upper_fixed _ Hup), (space_upper_runs_fixed _ _ Hup).
  unfold Str.strip_special. rewrite (filter_fixed Char.is_space);
    [ | intros c Hc; apply is_space_plain in Hc as (_ & _ & ->); reflexivity
      | exact H ].
  rewrite (trim_blank _ H). reflexivity.
Qed.

(** toDotCase gives the empty string for a string of white space. *)
Lemma toDotCase_text_blank s :
  Str.forallb Char.is_space s = true -> toDotCase_text s = "".
Proof.
  intros H. unfold toDotCase_text. rewrite (trim_blank _ H). reflexivity.
Qed.

Lemma kebab_char_clean c : kebab_char c = true -> kebab_clean c = true.
Proof. each_char c. Qed.

Lemma dot_word_fragment w : dot_word w = true -> fragment w = true.
Proof.
  intros H. unfold fragment. rewrite (dot_word_no_dot _ H).
  unfold dot_word in H. apply andb_prop in H as [-> _]. reflexivity.
Qed.

(** ** toDotCase removes the separators and nothing else *)

Lemma filter_app p s t :
  Str.filter p (s ++ t) = Str.filter p s ++ Str.filter p t.
Proof.
  induction s as [|c r IH]; simpl; [ reflexivity | ].
  rewrite IH. destruct (p c); reflexivity.
Qed.

Lemma map_app f s t : Str.map f (s ++ t) = Str.map f s ++ Str.map f t.
Proof. induction s as [|c r IH]; simpl; congruence. Qed.

Lemma filter_drop_start p q s :
  (forall c, q c = true -> p c = false) ->
  Str.filter p (Str.drop_start q s) = Str.filter p s.
Proof.
  intros Hqp. induction s as [|c r IH]; simpl; [ reflexivity | ].
  destruct (q c) eqn:Hc; [ | reflexivity ].
  rewrite (Hqp _ Hc). exact IH.
Qed.

Lemma filter_drop_end p q s :
  (forall c, q c = true -> p c = false) ->
  Str.filter p (Str.drop_end q s) = Str.filter p s.
Proof.
  intros Hqp. induction s as [|c r IH]; simpl; [ reflexivity | ].
  destruct (Str.drop_end q r) as [|d r'].
  - simpl in IH. rewrite <- IH.
    destruct (q c) eqn:Hc; [ rewrite (Hqp _ Hc) | ]; reflexivity.
  - change (Str.filter p (String c (String d r')))
      with (if p c then String c (Str.filter p (String d r'))
            else Str.filter p (String d r')).
    rewrite IH. reflexivity.
Qed.

Lemma join_flat w ws : Str.join "" (w :: ws) = w ++ Str.join "" ws.
Proof.
  destruct ws as [|w' ws]; [ | reflexivity ].
  simpl. induction w; simpl; congruence.
Qed.

(** The pieces of a split, put together again, are the string without
    its separators. *)
Lemma join_split_runs sep s in_run :
  Str.join "" (Str.split_runs sep in_run s)
  = Str.filter (fun c => negb (sep c)) s.
Proof.
  revert in_run. induction s as [|c r IH]; intros in_run; [ reflexivity | ].
  simpl. destruct (sep c); simpl negb; cbv iota.
  - destruct in_run; [ apply IH | ]. rewrite join_flat. apply IH.
  - rewrite <- (IH false).
    pose proof (split_runs_not_nil sep r false) as Hnn.
    destruct (Str.split_runs sep false r) as [|w ws]; [ congruence | ].
    rewrite !join_flat. reflexivity.
Qed.

Lemma join_filter_nonempty ws :
  Str.join "" (List.filter (fun word => (0 <? String.length word)%nat) ws)
  = Str.join "" ws.
Proof.
  induction ws as [|w ws IH]; [ reflexivity | ].
  cbn [List.filter]. destruct w as [|c r].
  - change (0 <? String.length "")%nat with false. cbv iota.
    rewrite IH, join_flat. reflexivity.
  - change (0 <? String.length (String c r))%nat with true. cbv iota.
    rewrite !join_flat, IH. reflexivity.
Qed.

Lemma join_map_toLowerCase ws :
  Str.join "" (List.map (fun word => Str.toLowerCase word) ws)
  = Str.toLowerCase (Str.join "" ws).
Proof.
  induction ws as [|w ws IH]; [ reflexivity | ].
  cbn [List.map]. rewrite !join_flat, IH. unfold Str.toLowerCase.
  rewrite map_app. reflexivity.
Qed.

(** Without the dots, words joined by dots are the words put together. *)
Lemma filter_joined ws :
  List.forallb dot_word ws = true ->
  Str.filter (fun c => negb (Char.is_dot c)) (Str.join "." ws)
  = Str.join "" ws.
Proof.
  assert (Hword : forall w, dot_word w = true ->
            Str.filter (fun c => negb (Char.is_dot c)) w = w).
  { intros w Hw. apply dot_word_no_dot in Hw.
    revert Hw. apply filter_fixed. intros c Hc.
    destruct (Char.is_dot c) eqn:Hd; [ | reflexivity ].
    apply is_dot_spec in Hd. subst c. discriminate. }
  induction ws as [|w ws IH]; [ reflexivity | ].
  simpl List.forallb. intros [Hw Hws]%andb_prop.
  destruct ws as [|w' ws]; [ exact (Hword _ Hw) | ].
  rewrite join_cons, join_flat, !filter_app, (Hword _ Hw), (IH Hws).
  reflexivity.
Qed.

(** The output without its dots is the input without its separators, in
    lower case. *)
Lemma toDotCase_text_content input :
  Str.filter (fun c => negb (Char.is_dot c)) (toDotCase_text input)
  = Str.toLowerCase
      (Str.filter (fun c => negb (Char.is_separator c)) input).
Proof.
  assert (Htrim : Str.filter (fun c => negb (Char.is_separator c))
                    (Str.trim input)
                  = Str.filter (fun c => negb (Char.is_separator c)) input).
  { unfold Str.trim. rewrite filter_drop_end, filter_drop_start;
      [ reflexivity | | ];
      intros c Hc; rewrite (space_is_separator _ Hc); reflexivity. }
  unfold toDotCase_text. rewrite <- Htrim.
  destruct (Str.trim input) as [|c r] eqn:Et; [ reflexivity | ].
  change (String.length (String c r) =? 0)%nat with false. cbv iota zeta.
  rewrite <- (join_split_runs Char.is_separator (String c r) false).
  rewrite <- join_filter_nonempty, <- join_map_toLowerCase.
  set (words := List.filter _ _).
  destruct words as [|w l] eqn:Ew; [ reflexivity | ].
  change (List.length (w :: l) =? 0)%nat with false. cbv iota.
  apply filter_joined.
  apply forallb_forall. intros x [x0 [<- Hx0]]%in_map_iff.
  rewrite <- Ew in Hx0. apply filter_In in Hx0 as [Hin Hlen].
  apply dot_word_toLowerCase; [ exact Hlen | ].
  exact (split_runs_pieces _ _ _ _ Hin).
Qed.

(** ** The examples of the source files *)

(** The inputs of the example section of [src/chain_prompt.js]. *)
Example toKebabCase_examples :
  List.map toKebabCase_text
    ["foo bar baz"; "foo_bar_baz"; "fooBarBaz"; "foo    bar    baz";
     "foo@bar#baz"; "HelloWorld_Foo Bar"; "HTTPServer"]
  = ["foo-bar-baz"; "foo-bar-baz"; "foo-bar-baz"; "foo-bar-baz";
     "foobarbaz"; "hello-world-foo-bar"; "httpserver"].
Proof. reflexivity. Qed.

(** The examples of the documentation of [toDotCase] that hold. *)
Example toDotCase_examples :
  List.map toDotCase_text ["hello world"; "hello-world"; ""; "   "]
  = ["hello.world"; "hello.world"; ""; ""].
Proof. reflexivity. Qed.

(** ** The input that is no string *)



(** * The claims *)

(** C1.  The literal scenarios: toKebabCase maps "hello world",
    "hello_world", "helloWorld", "hello   world" and "hello, world!"
    each to "hello-world"; toDotCase maps "HELLO_WORLD" and
    "hello!!!world???" each to "hello.world". *)
Theorem literal_scenarios :
  toKebabCase (VString "hello world") = Run [] (Return (VString "hello-world"))
  /\ toKebabCase (VString "hello_world")
     = Run [] (Return (VString "hello-world"))
  /\ toKebabCase (VString "helloWorld")
     = Run [] (Return (VString "hello-world"))
  /\ toKebabCase (VString "hello   world")
     = Run [] (Return (VString "hello-world"))
  /\ toKebabCase (VString "hello, world!")
     = Run [] (Return (VString "hello-world"))
  /\ toDotCase (VString "HELLO_WORLD") = Return (VString "hello.world")
  /\ toDotCase (VString "hello!!!world???") = Return (VString "hello.world").
Proof. repeat split. Qed.

(** C2, at the input where the code departs from it.  toDotCase puts no
    boundary between a lower case letter and the upper case letter after
    it: for "helloWorld" it returns "helloworld", not "hello.world" as
    its own documentation has it, while toKebabCase does split there. *)
Theorem toDotCase_camel_input :
  toDotCase (VString "helloWorld") = Return (VString "helloworld")
  /\ toDotCase (VString "helloWorld") <> Return (VString "hello.world")
  /\ toKebabCase (VString "helloWorld")
     = Run [] (Return (VString "hello-world")).
Proof. repeat split. discriminate. Qed.

(** C3, at the input where the code departs from it.  toKebabCase keeps
    the hyphens of its input and turns the white space next to them into
    more hyphens: "some-MIXED_case", an input of the examples of the
    source file, gives "some--mixed-case", and "a - b" gives "a---b". *)
Theorem toKebabCase_double_hyphen :
  toKebabCase (VString "some-MIXED_case")
  = Run [] (Return (VString "some--mixed-case"))
  /\ Str.has_double "-" "some--mixed-case" = true
  /\ toKebabCase (VString "a - b") = Run [] (Return (VString "a---b")).
Proof. repeat split. Qed.

(** C4, at the input where the code departs from it.  toKebabCase and
    toDotCase map the empty string and "   " to the empty string;
    toCamelCase returns undefined for both. *)
Theorem blank_inputs :
  toKebabCase (VString "") = Run [] (Return (VString ""))
  /\ toKebabCase (VString "   ") = Run [] (Return (VString ""))
  /\ toDotCase (VString "") = Return (VString "")
  /\ toDotCase (VString "   ") = Return (VString "")
  /\ toCamelCase (VString "") = Return VUndefined
  /\ toCamelCase (VString "   ") = Return VUndefined.
Proof. repeat split. Qed.



(** C6.  For toKebabCase and toDotCase a null input and an undefined
    input each return the empty string; nothing is thrown. *)
Theorem absent_inputs :
  result (toKebabCase VNull) = Return (VString "")
  /\ result (toKebabCase VUndefined) = Return (VString "")
  /\ toDotCase VNull = Return (VString "")
  /\ toDotCase VUndefined = Return (VString "").
Proof. repeat split. Qed.

(** C7, at the input where the code departs from it.  toCamelCase has no
    body: for "convert-this-string", as for any argument, it returns
    undefined, which is not a string. *)
Theorem toCamelCase_unimplemented :
  toCamelCase (VString "convert-this-string") = Return VUndefined
  /\ toCamelCase (VString "convert-this-string")
     <> Return (VString "convertThisString")
  /\ forall str, toCamelCase str = Return VUndefined.
Proof. repeat split. discriminate. Qed.

(** C8.  Each of the three functions is idempotent on strings: what it
    returns for a string, it returns again when applied to that result.
    (toCamelCase returns undefined, for a string and for undefined.) *)
Theorem conversions_idempotent (x : string) :
  idempotent_at (fun v => result (toKebabCase v)) x
  /\ idempotent_at toCamelCase x
  /\ idempotent_at toDotCase x.
Proof.
  unfold idempotent_at. repeat split.
  - exists (VString (toKebabCase_text x)). split; [ reflexivity | ].
    simpl. rewrite toKebabCase_text_idem. reflexivity.
  - exists VUndefined. split; reflexivity.
  - exists (VString (toDotCase_text x)). split; [ reflexivity | ].
    simpl. rewrite toDotCase_text_idem. reflexivity.
Qed.

(** C9 as stated fails for toDotCase: the plus sign of "a+b" is neither
    a letter, nor a digit, nor a dot, and is in the output. *)
Lemma toDotCase_keeps_symbols :
  toDotCase (VString "a+b") = Return (VString "a+b")
  /\ Str.mem "+" "a+b" = true
  /\ Str.forallb (letter_digit_or Char.is_dot) "a+b" = false.
Proof. repeat split. Qed.

(** C9, amended.  Every character of the output of toKebabCase is a
    letter, a digit or a hyphen.  Every character of the output of
    toDotCase is a dot or a character that is no separator of toDotCase,
    neither white space, hyphen, underscore nor punctuation: a letter, a
    digit, or another such character, as a symbol is. *)
Theorem output_characters (input : string) :
  (exists out, toKebabCase (VString input) = Run [] (Return (VString out))
               /\ Str.forallb (letter_digit_or Char.is_hyphen) out = true)
  /\ (exists out, toDotCase (VString input) = Return (VString out)
                  /\ Str.forallb dot_or_kept out = true).
Proof.
  split.
  - exists (toKebabCase_text input). split; [ reflexivity | ].
    pose proof (toKebabCase_text_chars input) as H.
    revert H. apply forallb_impl, kebab_char_claimed.
  - exists (toDotCase_text input). split; [ reflexivity | ].
    destruct (toDotCase_text_words input) as (ws & -> & Hws).
    pose proof (joined_chars _ Hws) as H. revert H. apply forallb_impl.
    intros c. unfold dot_char, dot_or_kept.
    destruct (Char.is_dot c); [ reflexivity | ].
    intros [H _]%andb_prop. exact H.
Qed.

(** C10.  The output of toKebabCase neither begins nor ends with a
    hyphen and has no upper case letter, underscore or white space in
    it.  The output of toDotCase neither begins nor ends with a dot and
    has no two dots in a row: it is a list of fragments, none empty and
    none with a dot in it, joined by dots. *)
Theorem output_shape (input : string) :
  (exists out, toKebabCase (VString input) = Run [] (Return (VString out))
               /\ Str.first out <> Some "-"%char
               /\ Str.last out <> Some "-"%char
               /\ Str.forallb kebab_clean out = true)
  /\ (exists out, toDotCase (VString input) = Return (VString out)
                  /\ Str.first out <> Some "."%char
                  /\ Str.last out <> Some "."%char
                  /\ Str.has_double "." out = false
                  /\ exists ws, out = Str.join "." ws
                                /\ List.forallb fragment ws = true).
Proof.
  split.
  - exists (toKebabCase_text input). split; [ reflexivity | ].
    repeat split.
    + intros H. pose proof (toKebabCase_text_edges _ _ (or_introl H)).
      discriminate.
    + intros H. pose proof (toKebabCase_text_edges _ _ (or_intror H)).
      discriminate.
    + pose proof (toKebabCase_text_chars input) as H.
      revert H. apply forallb_impl, kebab_char_clean.
  - exists (toDotCase_text input). split; [ reflexivity | ].
    destruct (toDotCase_text_words input) as (ws & -> & Hws).
    repeat split.
    + intros H. pose proof (joined_first _ Hws _ H). discriminate.
    + intros H. pose proof (joined_last _ Hws _ H). discriminate.
    + apply joined_no_double, Hws.
    + exists ws. split; [ reflexivity | ].
      apply forallb_forall. intros w Hw. apply dot_word_fragment.
      exact (proj1 (forallb_forall _ _) Hws w Hw).
Qed.

(** * Further properties *)

(** ** toKebabCase: the steps that do not change the result *)

Lemma to_lower_space : forall c, Char.is_space c = true -> Char.to_lower c = c.
Proof. intros c. each_char c. Qed.

(** Line 40: runs of white space need not be made one space before they
    are made one hyphen. *)
Lemma replace_space_runs_twice s in_run :
  Str.replace_space_runs "-" in_run
    (Str.toLowerCase (Str.replace_space_runs " " in_run s))
  = Str.replace_space_runs "-" in_run (Str.toLowerCase s).
Proof.
  unfold Str.toLowerCase. revert in_run.
  induction s as [|c r IH]; intros in_run; [ reflexivity | ].
  simpl. destruct (Char.is_space c) eqn:Hc.
  - rewrite is_space_to_lower, Hc.
    destruct in_run; simpl; rewrite IH; reflexivity.
  - simpl. rewrite is_space_to_lower, Hc, IH. reflexivity.
Qed.

Lemma map_drop_start f p s :
  (forall c, p (f c) = p c) ->
  Str.map f (Str.drop_start p s) = Str.drop_start p (Str.map f s).
Proof.
  intros Hf. induction s as [|c r IH]; [ reflexivity | ].
  simpl. rewrite Hf. destruct (p c); [ exact IH | reflexivity ].
Qed.

Lemma map_drop_end f p s :
  (forall c, p (f c) = p c) ->
  Str.map f (Str.drop_end p s) = Str.drop_end p (Str.map f s).
Proof.
  intros Hf. induction s as [|c r IH]; [ reflexivity | ].
  simpl. rewrite <- IH, Hf.
  destruct (Str.drop_end p r); [ destruct (p c) | ]; reflexivity.
Qed.

(** After a white space the replacement goes on as from the next
    character that is none. *)
Lemma replace_space_runs_skip by_ s :
  Str.replace_space_runs by_ true s
  = Str.replace_space_runs by_ false (Str.drop_start Char.is_space s).
Proof.
  induction s as [|c r IH]; [ reflexivity | ].
  simpl. destruct (Char.is_space c) eqn:Hc; [ exact IH | ].
  simpl. rewrite Hc. reflexivity.
Qed.

Lemma append_assoc (a b c : string) : (a ++ b) ++ c = a ++ (b ++ c).
Proof. induction a as [|x a IH]; simpl; congruence. Qed.

Lemma append_empty (a : string) : a ++ "" = a.
Proof. induction a as [|x a IH]; simpl; congruence. Qed.

(** The white space at the end gives hyphens at the end, and nothing
    else. *)
Lemma replace_space_runs_end s in_run :
  exists e, Str.forallb Char.is_hyphen e = true
            /\ Str.replace_space_runs "-" in_run s
               = Str.replace_space_runs "-" in_run
                   (Str.drop_end Char.is_space s) ++ e.
Proof.
  revert in_run. induction s as [|c r IH]; intros in_run.
  - exists "". split; reflexivity.
  - simpl. destruct (Str.drop_end Char.is_space r) as [|d r'] eqn:Er.
    + destruct (Char.is_space c) eqn:Hc.
      * destruct (IH true) as (e & He & ->). simpl.
        destruct in_run; [ exists e | exists (String "-" e) ];
          split; auto.
      * destruct (IH false) as (e & He & ->). simpl. rewrite Hc.
        exists e. split; auto.
    + destruct (IH (Char.is_space c)) as (e & He & E).
      exists e. split; [ exact He | ].
      change (Str.replace_space_runs "-" in_run (String c (String d r')))
        with (if Char.is_space c
              then if in_run
                   then Str.replace_space_runs "-" true (String d r')
                   else String "-"
                          (Str.replace_space_runs "-" true (String d r'))
              else String c
                     (Str.replace_space_runs "-" false (String d r'))).
      destruct (Char.is_space c); [ destruct in_run | ]; rewrite E;
        reflexivity.
Qed.

Lemma drop_end_all p s : Str.forallb p s = true -> Str.drop_end p s = "".
Proof.
  induction s as [|c r IH]; simpl; [ reflexivity | ].
  intros [Hc Hr]%andb_prop. rewrite (IH Hr), Hc. reflexivity.
Qed.

Lemma drop_end_app p s e :
  Str.forallb p e = true -> Str.drop_end p (s ++ e) = Str.drop_end p s.
Proof.
  intros He. induction s as [|c r IH]; [ exact (drop_end_all _ _ He) | ].
  simpl. rewrite IH. reflexivity.
Qed.

Lemma drop_start_app p s e :
  Str.forallb p e = true ->
  exists e', Str.forallb p e' = true
             /\ Str.drop_start p (s ++ e) = Str.drop_start p s ++ e'.
Proof.
  intros He. induction s as [|c r IH].
  - exists "". split; [ reflexivity | ]. exact (drop_start_all _ _ He).
  - simpl. destruct (p c); [ exact IH | ].
    exists e. split; [ exact He | reflexivity ].
Qed.

Lemma strip_edge_hyphens_app s e :
  Str.forallb Char.is_hyphen e = true ->
  Str.strip_edge_hyphens (s ++ e) = Str.strip_edge_hyphens s.
Proof.
  intros He. unfold Str.strip_edge_hyphens.
  destruct (drop_start_app Char.is_hyphen s e He) as (e' & He' & ->).
  apply drop_end_app. exact He'.
Qed.

(** [trim]: the white space at the ends becomes hyphens at the ends,
    which go. *)
Lemma strip_edge_hyphens_trim s :
  Str.strip_edge_hyphens (Str.replace_space_runs "-" false (Str.trim s))
  = Str.strip_edge_hyphens (Str.replace_space_runs "-" false s).
Proof.
  unfold Str.trim.
  destruct (replace_space_runs_end (Str.drop_start Char.is_space s) false)
    as (e & He & E).
  transitivity (Str.strip_edge_hyphens
                  (Str.replace_space_runs "-" false
                     (Str.drop_start Char.is_space s))).
  - rewrite E, strip_edge_hyphens_app by exact He. reflexivity.
  - destruct s as [|c r]; [ reflexivity | ].
    cbn [Str.drop_start Str.replace_space_runs].
    destruct (Char.is_space c) eqn:Hc.
    + rewrite replace_space_runs_skip. reflexivity.
    + cbn [Str.replace_space_runs]. rewrite Hc. reflexivity.
Qed.

(** Line 34: the space it puts before an upper case letter comes next to
    the one line 35 puts there. *)
Lemma more_spaces_refl s : more_spaces s s.
Proof. induction s; constructor; assumption. Qed.

Lemma space_lower_upper_more_spaces s in_run :
  more_spaces (Str.space_upper_runs in_run (Str.space_lower_upper s))
              (Str.space_upper_runs in_run s).
Proof.
  revert in_run.
  induction s as [| a | a b r IHr IHbr] using string_pair_ind;
    intros in_run; try apply more_spaces_refl.
  rewrite space_lower_upper_eq.
  destruct (Char.is_lower a && Char.is_upper b) eqn:Hab.
  - apply andb_prop in Hab as [Ha Hb].
    assert (Hua : Char.is_upper a = false) by (revert Ha; each_char a).
    cbn [Str.space_upper_runs]. rewrite Hua, Hb.
    change (Char.is_upper " ") with false. cbv iota.
    apply more_spaces_same, more_spaces_extra, more_spaces_same,
      more_spaces_same, IHr.
  - change (Str.space_upper_runs in_run
              (String a (Str.space_lower_upper (String b r))))
      with (if Char.is_upper a
            then if in_run
                 then String a (Str.space_upper_runs true
                                  (Str.space_lower_upper (String b r)))
                 else String " " (String a
                        (Str.space_upper_runs true
                           (Str.space_lower_upper (String b r))))
            else String a (Str.space_upper_runs false
                             (Str.space_lower_upper (String b r)))).
    change (Str.space_upper_runs in_run (String a (String b r)))
      with (if Char.is_upper a
            then if in_run
                 then String a (Str.space_upper_runs true (String b r))
                 else String " " (String a
                        (Str.space_upper_runs true (String b r)))
            else String a (Str.space_upper_runs false (String b r))).
    destruct (Char.is_upper a); [ destruct in_run | ];
      repeat apply more_spaces_same; apply IHbr.
Qed.

Lemma more_spaces_filter keep s t :
  keep " "%char = true ->
  more_spaces s t -> more_spaces (Str.filter keep s) (Str.filter keep t).
Proof.
  intros Hk H. induction H as [| c s t H IH | s t H IH].
  - constructor.
  - simpl. destruct (keep c); [ constructor | ]; exact IH.
  - simpl in *. rewrite Hk in *. apply more_spaces_extra. exact IH.
Qed.

Lemma more_spaces_map f s t :
  f " "%char = " "%char ->
  more_spaces s t -> more_spaces (Str.map f s) (Str.map f t).
Proof.
  intros Hf H. induction H as [| c s t H IH | s t H IH].
  - constructor.
  - simpl. constructor. exact IH.
  - simpl in *. rewrite Hf in *. apply more_spaces_extra. exact IH.
Qed.

Lemma more_spaces_replace by_ s t :
  more_spaces s t ->
  forall in_run,
    Str.replace_space_runs by_ in_run s = Str.replace_space_runs by_ in_run t.
Proof.
  intros H. induction H as [| c s t H IH | s t H IH]; intros in_run.
  - reflexivity.
  - simpl. rewrite !IH. reflexivity.
  - specialize (IH true). simpl in *. rewrite IH. reflexivity.
Qed.

(** toKebabCase does what its short form does. *)
Lemma toKebabCase_text_short input :
  toKebabCase_text input = toKebabCase_short input.
Proof.
  unfold toKebabCase_text, toKebabCase_short.
  destruct input as [|c r] eqn:E; [ reflexivity | ]. rewrite <- E.
  replace (String.length input =? 0)%nat with false
    by (subst input; reflexivity).
  cbv zeta. rewrite replace_space_runs_twice.
  unfold Str.toLowerCase at 1, Str.trim.
  rewrite map_drop_end, map_drop_start by apply is_space_to_lower.
  fold (Str.trim (Str.map Char.to_lower
         (Str.strip_special
            (Str.space_upper_runs false
               (Str.space_lower_upper (Str.replace_underscores input)))))).
  rewrite strip_edge_hyphens_trim. f_equal.
  apply more_spaces_replace, more_spaces_map; [ reflexivity | ].
  apply more_spaces_filter; [ reflexivity | ].
  apply space_lower_upper_more_spaces.
Qed.

(** ** toKebabCase: the letters and digits *)

Lemma filter_filter p q s :
  (forall c, p c = true -> q c = true) ->
  Str.filter p (Str.filter q s) = Str.filter p s.
Proof.
  intros Hpq. induction s as [|c r IH]; [ reflexivity | ].
  simpl. destruct (q c) eqn:Hq; simpl; rewrite IH.
  - reflexivity.
  - destruct (p c) eqn:Hp; [ | reflexivity ].
    rewrite (Hpq _ Hp) in Hq. discriminate.
Qed.

Lemma filter_map p f s :
  (forall c, p (f c) = p c) ->
  Str.filter p (Str.map f s) = Str.map f (Str.filter p s).
Proof.
  intros Hf. induction s as [|c r IH]; [ reflexivity | ].
  simpl. rewrite Hf, IH. destruct (p c); reflexivity.
Qed.

Lemma filter_replace_space_runs p by_ s in_run :
  p by_ = false -> (forall c, Char.is_space c = true -> p c = false) ->
  Str.filter p (Str.replace_space_runs by_ in_run s) = Str.filter p s.
Proof.
  intros Hby Hsp. revert in_run.
  induction s as [|c r IH]; intros in_run; [ reflexivity | ].
  simpl. destruct (Char.is_space c) eqn:Hc.
  - rewrite (Hsp _ Hc). destruct in_run; simpl; rewrite ?Hby; apply IH.
  - simpl. rewrite IH. reflexivity.
Qed.

Lemma filter_space_upper_runs p s in_run :
  p " "%char = false ->
  Str.filter p (Str.space_upper_runs in_run s) = Str.filter p s.
Proof.
  intros Hsp. revert in_run.
  induction s as [|c r IH]; intros in_run; [ reflexivity | ].
  simpl. destruct (Char.is_upper c), in_run; simpl; rewrite ?Hsp, IH;
    reflexivity.
Qed.

Lemma filter_replace_underscores p s :
  p " "%char = false -> p "_"%char = false ->
  Str.filter p (Str.replace_underscores s) = Str.filter p s.
Proof.
  intros Hsp Hus. unfold Str.replace_underscores.
  induction s as [|c r IH]; [ reflexivity | ].
  simpl. rewrite IH. destruct (Char.is_underscore c) eqn:Hc;
    [ | reflexivity ].
  assert (c = "_"%char) as -> by (revert Hc; each_char c).
  rewrite Hsp, Hus. reflexivity.
Qed.

Lemma is_alnum_to_lower c : is_alnum (Char.to_lower c) = is_alnum c.
Proof. each_char c. Qed.

Lemma is_alnum_kept c : is_alnum c = true -> Char.is_special c = false.
Proof. each_char c. Qed.

Lemma is_alnum_plain c :
  is_alnum c = true -> Char.is_space c = false /\ Char.is_hyphen c = false.
Proof. each_char c; intros _; split; reflexivity. Qed.

(** The letters and digits of the output are the ones of the input, in
    lower case. *)
Lemma toKebabCase_text_content input :
  Str.filter is_alnum (toKebabCase_text input)
  = Str.toLowerCase (Str.filter is_alnum input).
Proof.
  rewrite toKebabCase_text_short. unfold toKebabCase_short.
  unfold Str.strip_edge_hyphens, Str.strip_special, Str.toLowerCase.
  assert (Hhy : forall c, Char.is_hyphen c = true -> is_alnum c = false).
  { intros c Hc. destruct (is_alnum c) eqn:Ha; [ | reflexivity ].
    apply is_alnum_plain in Ha as [_ Ha]. congruence. }
  assert (Hsp : forall c, Char.is_space c = true -> is_alnum c = false).
  { intros c Hc. destruct (is_alnum c) eqn:Ha; [ | reflexivity ].
    apply is_alnum_plain in Ha as [Ha _]. congruence. }
  rewrite filter_drop_end, filter_drop_start by exact Hhy.
  rewrite filter_replace_space_runs by (reflexivity || exact Hsp).
  rewrite filter_map by apply is_alnum_to_lower. f_equal.
  rewrite filter_filter
    by (intros c Hc; rewrite (is_alnum_kept _ Hc); reflexivity).
  rewrite filter_space_upper_runs by reflexivity.
  apply filter_replace_underscores; reflexivity.
Qed.

Lemma filter_empty p s :
  Str.filter p s = "" -> Str.forallb (fun c => negb (p c)) s = true.
Proof.
  induction s as [|c r IH]; simpl; [ reflexivity | ].
  destruct (p c); [ discriminate | exact IH ].
Qed.

Lemma filter_none p s :
  Str.forallb (fun c => negb (p c)) s = true -> Str.filter p s = "".
Proof.
  induction s as [|c r IH]; simpl; [ reflexivity | ].
  intros [Hc Hr]%andb_prop. apply negb_true_iff in Hc.
  rewrite Hc. exact (IH Hr).
Qed.

Lemma map_empty f s : Str.map f s = "" -> s = "".
Proof. destruct s; [ reflexivity | discriminate ]. Qed.

Lemma kebab_char_hyphen c :
  kebab_char c = true -> is_alnum c = false -> Char.is_hyphen c = true.
Proof. each_char c. Qed.

(** The output is empty exactly when the input has no letter or digit. *)
Lemma toKebabCase_text_empty input :
  toKebabCase_text input = "" <-> Str.filter is_alnum input = "".
Proof.
  pose proof (toKebabCase_text_content input) as Hc. split; intros H.
  - rewrite H in Hc. symmetry in Hc. exact (map_empty _ _ Hc).
  - rewrite H in Hc. apply filter_empty in Hc.
    pose proof (toKebabCase_text_chars input) as Hk.
    pose proof (toKebabCase_text_edges input) as He.
    destruct (toKebabCase_text input) as [|c r]; [ reflexivity | ].
    simpl in Hc, Hk. apply andb_prop in Hc as [Hc _].
    apply andb_prop in Hk as [Hk _]. apply negb_true_iff in Hc.
    pose proof (kebab_char_hyphen _ Hk Hc) as Hh.
    rewrite (He c (or_introl eq_refl)) in Hh. discriminate.
Qed.

(** ** toKebabCase: words with white space and underscores between *)

Lemma map_join f sep ws :
  Str.map f (Str.join sep ws)
  = Str.join (Str.map f sep) (List.map (Str.map f) ws).
Proof.
  induction ws as [|w rest IH]; [ reflexivity | ].
  destruct rest as [|w' rest]; [ reflexivity | ].
  rewrite join_cons, !map_app, IH. reflexivity.
Qed.

(** A word goes through the replacement of white space as it is. *)
Lemma replace_space_runs_word by_ w t in_run :
  w <> "" -> Str.forallb (fun c => negb (Char.is_space c)) w = true ->
  Str.replace_space_runs by_ in_run (w ++ t)
  = w ++ Str.replace_space_runs by_ false t.
Proof.
  intros Hne Hw. revert in_run.
  induction w as [|c r IH]; intros in_run; [ congruence | ].
  simpl in Hw. apply andb_prop in Hw as [Hc Hr]. apply negb_true_iff in Hc.
  simpl. rewrite Hc. f_equal.
  destruct r as [|d r']; [ reflexivity | ].
  apply IH; [ discriminate | exact Hr ].
Qed.

(** A run of white space becomes one [by_]. *)
Lemma replace_space_runs_gap by_ g t :
  Str.forallb Char.is_space g = true ->
  Str.replace_space_runs by_ true (g ++ t)
  = Str.replace_space_runs by_ true t.
Proof.
  induction g as [|c r IH]; [ reflexivity | ].
  simpl. intros [Hc Hr]%andb_prop. rewrite Hc. exact (IH Hr).
Qed.

Lemma replace_space_runs_join by_ g ws in_run :
  g <> "" -> Str.forallb Char.is_space g = true ->
  (forall w, In w ws ->
     w <> "" /\ Str.forallb (fun c => negb (Char.is_space c)) w = true) ->
  Str.replace_space_runs by_ in_run (Str.join g ws)
  = Str.join (String by_ "") ws.
Proof.
  intros Hg Hsp. revert in_run.
  induction ws as [|w rest IH]; intros in_run Hws; [ reflexivity | ].
  destruct (Hws w (or_introl eq_refl)) as [Hne Hw].
  destruct rest as [|w' rest].
  - simpl. rewrite <- (append_empty w) at 1.
    rewrite replace_space_runs_word by assumption. apply append_empty.
  - rewrite !join_cons, replace_space_runs_word by assumption. f_equal.
    destruct g as [|c g']; [ congruence | ].
    simpl in Hsp. apply andb_prop in Hsp as [Hc Hg'].
    change (String c g' ++ ?t) with (String c (g' ++ t)).
    cbn [Str.replace_space_runs]. rewrite Hc.
    rewrite replace_space_runs_gap by exact Hg'.
    change (String by_ "" ++ ?t) with (String by_ t). f_equal.
    apply IH. intros x Hx. apply Hws. right. exact Hx.
Qed.

(** The first and the last character of words joined are characters of
    the words. *)
Lemma join_edges p sep ws c :
  (forall w, In w ws -> w <> "" /\ Str.forallb p w = true) ->
  Str.first (Str.join sep ws) = Some c \/ Str.last (Str.join sep ws) = Some c ->
  p c = true.
Proof.
  intros Hws [H | H].
  - destruct ws as [|w rest]; [ discriminate | ].
    destruct (Hws w (or_introl eq_refl)) as [Hne Hw].
    rewrite (first_join _ _ _ Hne) in H. exact (forallb_first _ _ _ Hw H).
  - induction ws as [|w rest IH]; [ discriminate | ].
    destruct (Hws w (or_introl eq_refl)) as [Hne Hw].
    destruct rest as [|w' rest]; [ exact (forallb_last _ _ _ Hw H) | ].
    assert (Hj : Str.join sep (w' :: rest) <> "").
    { destruct (Hws w' (or_intror (or_introl eq_refl))) as [Hne' _].
      pose proof (first_join sep w' rest Hne') as Hf.
      destruct (Str.join sep (w' :: rest)); [ | discriminate ].
      destruct w'; [ congruence | discriminate ]. }
    rewrite join_cons, last_app in H.
    + rewrite last_app in H by exact Hj.
      apply IH; [ | exact H ]. intros x Hx. apply Hws. right. exact Hx.
    + destruct sep; [ exact Hj | discriminate ].
Qed.

Lemma small_word_spec w :
  small_word w = true <-> w <> "" /\ Str.forallb is_small w = true.
Proof.
  unfold small_word. rewrite andb_true_iff. destruct w as [|c r].
  - change (0 <? String.length "")%nat with false. intuition congruence.
  - change (0 <? String.length (String c r))%nat with true.
    intuition congruence.
Qed.

Lemma is_small_plain c :
  is_small c = true ->
  Char.is_underscore c = false /\ Char.is_upper c = false
  /\ Char.is_uppercase c = false /\ Char.is_space c = false
  /\ Char.is_special c = false /\ Char.is_hyphen c = false.
Proof. each_char c; intros _; repeat split. Qed.

Lemma is_blank_space c :
  is_blank c = true ->
  Char.is_space (if Char.is_underscore c then " "%char else c) = true.
Proof. each_char c. Qed.

(** Words of lower case letters and digits with a run of white space
    and underscores between each two come out with a hyphen between each
    two. *)
Lemma toKebabCase_text_joined g ws :
  blank_run g = true -> List.forallb small_word ws = true ->
  toKebabCase_text (Str.join g ws) = Str.join "-" ws.
Proof.
  intros Hg Hall. pose proof (proj1 (forallb_forall _ _) Hall) as Hws.
  unfold blank_run in Hg. apply andb_prop in Hg as [Hlen Hg].
  rewrite toKebabCase_text_short. unfold toKebabCase_short.
  set (g' := Str.replace_underscores g).
  assert (Hg' : g' <> "" /\ Str.forallb Char.is_space g' = true).
  { split.
    - destruct g; [ discriminate | discriminate ].
    - unfold g', Str.replace_underscores.
      apply forallb_map with (p := is_blank); [ | exact Hg ].
      apply is_blank_space. }
  assert (E1 : Str.replace_underscores (Str.join g ws) = Str.join g' ws).
  { unfold Str.replace_underscores at 1. rewrite map_join. f_equal.
    apply map_all_fixed. intros w Hw.
    apply Hws, small_word_spec in Hw as [_ Hw].
    revert Hw. apply map_fixed. intros c Hc.
    apply is_small_plain in Hc as (-> & _). reflexivity. }
  rewrite E1.
  set (p := fun c => is_small c || Char.is_space c).
  assert (Hp : Str.forallb p (Str.join g' ws) = true).
  { apply forallb_join.
    - destruct Hg' as [_ Hsp]. revert Hsp. apply forallb_impl.
      intros c Hc. unfold p. rewrite Hc. apply orb_true_r.
    - intros w Hw. apply Hws, small_word_spec in Hw as [_ Hw].
      revert Hw. apply forallb_impl. intros c Hc. unfold p. rewrite Hc.
      reflexivity. }
  assert (Hpc : forall c, p c = true ->
            Char.is_upper c = false /\ Char.is_uppercase c = false
            /\ Char.is_special c = false).
  { intros c. unfold p. clear. each_char c; intros _; repeat split. }
  rewrite space_upper_runs_fixed
    by (revert Hp; apply forallb_impl; intros c Hc;
        apply Hpc in Hc as (-> & _); reflexivity).
  unfold Str.strip_special. rewrite (filter_fixed p)
    by (exact Hp || (intros c Hc; apply Hpc in Hc as (_ & _ & ->);
                     reflexivity)).
  unfold Str.toLowerCase. rewrite (map_fixed p)
    by (exact Hp || (intros c Hc; apply to_lower_fixed;
                     apply Hpc in Hc as (_ & -> & _); reflexivity)).
  assert (Hwords : forall w, In w ws ->
            w <> "" /\ Str.forallb (fun c => negb (Char.is_hyphen c)) w = true).
  { intros w Hw. apply Hws, small_word_spec in Hw as [Hne Hw].
    split; [ exact Hne | ]. revert Hw. apply forallb_impl. intros c Hc.
    apply is_small_plain in Hc as (_ & _ & _ & _ & _ & ->). reflexivity. }
  rewrite replace_space_runs_join.
  - unfold Str.strip_edge_hyphens. rewrite drop_start_fixed.
    + apply drop_end_fixed. intros c Hc. apply negb_true_iff.
      apply (join_edges _ "-" ws c Hwords). right. exact Hc.
    + intros c Hc. apply negb_true_iff.
      apply (join_edges _ "-" ws c Hwords). left. exact Hc.
  - apply Hg'.
  - apply Hg'.
  - intros w Hw. apply Hws, small_word_spec in Hw as [Hne Hw].
    split; [ exact Hne | ]. revert Hw. apply forallb_impl. intros c Hc.
    apply is_small_plain in Hc as (_ & _ & _ & -> & _). reflexivity.
Qed.

(** ** toKebabCase: camel case *)

Lemma join_glue by_ w ws : Str.join by_ (w :: ws) = w ++ glue by_ ws.
Proof.
  revert w. induction ws as [|w' rest IH]; intros w.
  - simpl. symmetry. apply append_empty.
  - rewrite join_cons, IH. reflexivity.
Qed.

Lemma map_glue f by_ ws :
  Str.map f (glue by_ ws) = glue (Str.map f by_) (List.map (Str.map f) ws).
Proof.
  induction ws as [|w rest IH]; [ reflexivity | ].
  simpl. rewrite !map_app, IH. reflexivity.
Qed.

Lemma forallb_glue p by_ ws :
  Str.forallb p by_ = true ->
  (forall w, In w ws -> Str.forallb p w = true) ->
  Str.forallb p (glue by_ ws) = true.
Proof.
  intros Hby. induction ws as [|w rest IH]; [ reflexivity | ].
  intros Hws. simpl. rewrite !forallb_app, Hby, (Hws w (or_introl eq_refl)).
  apply IH. intros x Hx. apply Hws. right. exact Hx.
Qed.

(** Lower case letters and digits go through line 35 as they are, and
    end a run of upper case letters. *)
Lemma space_upper_runs_small t r in_run :
  t <> "" -> Str.forallb (fun c => negb (Char.is_upper c)) t = true ->
  Str.space_upper_runs in_run (t ++ r) = t ++ Str.space_upper_runs false r.
Proof.
  intros Hne Ht. revert in_run.
  induction t as [|c t' IH]; intros in_run; [ congruence | ].
  simpl in Ht. apply andb_prop in Ht as [Hc Ht']. apply negb_true_iff in Hc.
  simpl. rewrite Hc. f_equal.
  destruct t' as [|d t'']; [ reflexivity | ].
  apply IH; [ discriminate | exact Ht' ].
Qed.

(** Upper case letters after an upper case letter are of its run. *)
Lemma space_upper_runs_upper u r :
  Str.forallb Char.is_upper u = true ->
  Str.space_upper_runs true (u ++ r) = u ++ Str.space_upper_runs true r.
Proof.
  induction u as [|c u' IH]; [ reflexivity | ].
  simpl. intros [Hc Hu']%andb_prop. rewrite Hc, (IH Hu'). reflexivity.
Qed.

Lemma capital_word_spec w :
  capital_word w = true <->
  fst w <> "" /\ Str.forallb Char.is_upper (fst w) = true
  /\ snd w <> "" /\ Str.forallb is_small (snd w) = true.
Proof.
  unfold capital_word. rewrite !andb_true_iff, small_word_spec.
  destruct (fst w) as [|c r].
  - change (0 <? String.length "")%nat with false. intuition congruence.
  - change (0 <? String.length (String c r))%nat with true.
    intuition congruence.
Qed.

Lemma is_small_not_upper c : is_small c = true -> Char.is_upper c = false.
Proof. intros H. apply is_small_plain in H as (_ & -> & _). reflexivity. Qed.

(** Line 35 puts a space before each word that starts with upper case
    letters. *)
Lemma space_upper_runs_capitals ws :
  List.forallb capital_word ws = true ->
  Str.space_upper_runs false (capitals ws)
  = glue " " (List.map (fun w => fst w ++ snd w) ws).
Proof.
  induction ws as [|[u t] rest IH]; [ reflexivity | ].
  simpl List.forallb. intros [Hw Hrest]%andb_prop.
  apply capital_word_spec in Hw as (Hu & Hup & Ht & Hsm). simpl in *.
  destruct u as [|c u']; [ congruence | ].
  simpl in Hup. apply andb_prop in Hup as [Hc Hu'].
  change (String c u' ++ ?x) with (String c (u' ++ x)).
  cbn [Str.space_upper_runs]. rewrite Hc.
  rewrite space_upper_runs_upper by exact Hu'.
  rewrite space_upper_runs_small;
    [ | exact Ht
      | revert Hsm; apply forallb_impl; intros d Hd;
        rewrite (is_small_not_upper _ Hd); reflexivity ].
  rewrite (IH Hrest). simpl. rewrite append_assoc. reflexivity.
Qed.

Lemma replace_space_runs_glue by_ ws :
  (forall w, In w ws ->
     w <> "" /\ Str.forallb (fun c => negb (Char.is_space c)) w = true) ->
  Str.replace_space_runs by_ false (glue " " ws) = glue (String by_ "") ws.
Proof.
  induction ws as [|w rest IH]; [ reflexivity | ].
  intros Hws. destruct (Hws w (or_introl eq_refl)) as [Hne Hw].
  simpl. rewrite replace_space_runs_word by assumption.
  rewrite IH; [ reflexivity | ].
  intros x Hx. apply Hws. right. exact Hx.
Qed.

Lemma is_small_to_lower c :
  is_small c = true \/ Char.is_upper c = true ->
  is_small (Char.to_lower c) = true.
Proof. each_char c; intros [|]; discriminate. Qed.

Lemma length_app_word (u t : string) : u <> "" -> u ++ t <> "".
Proof. destruct u; [ congruence | discriminate ]. Qed.

(** A camel case identifier comes out as its words in lower case with a
    hyphen between each two. *)
Lemma toKebabCase_text_camel w0 ws :
  Str.forallb is_small w0 = true -> List.forallb capital_word ws = true ->
  toKebabCase_text (w0 ++ capitals ws) = Str.join "-" (camel_words w0 ws).
Proof.
  intros Hw0 Hall. pose proof (proj1 (forallb_forall _ _) Hall) as Hws.
  rewrite toKebabCase_text_short. unfold toKebabCase_short.
  set (cat := fun w : string * string => fst w ++ snd w).
  set (q := fun c => is_small c || Char.is_upper c).
  assert (Hq : forall c, q c = true ->
            Char.is_underscore c = false /\ Char.is_special c = false
            /\ Char.is_space c = false).
  { intros c. unfold q. clear. each_char c; intros _; repeat split. }
  assert (Hcat : forall w, In w (List.map cat ws) ->
            w <> "" /\ Str.forallb q w = true).
  { intros w [[u t] [<- Hin]]%in_map_iff.
    apply Hws, capital_word_spec in Hin as (Hu & Hup & Ht & Hsm).
    simpl in *. unfold cat. simpl. split; [ exact (length_app_word _ _ Hu) | ].
    rewrite forallb_app. apply andb_true_intro. split.
    - revert Hup. apply forallb_impl. intros c Hc. unfold q. rewrite Hc.
      apply orb_true_r.
    - revert Hsm. apply forallb_impl. intros c Hc. unfold q. rewrite Hc.
      reflexivity. }
  assert (Hq0 : Str.forallb q w0 = true).
  { revert Hw0. apply forallb_impl. intros c Hc. unfold q. rewrite Hc.
    reflexivity. }
  assert (E2 : Str.space_upper_runs false (w0 ++ capitals ws)
               = w0 ++ glue " " (List.map cat ws)).
  { pose proof (space_upper_runs_capitals ws Hall) as Hcap.
    fold cat in Hcap. rewrite <- Hcap.
    destruct w0 as [|c r]; [ reflexivity | ].
    apply space_upper_runs_small; [ discriminate | ].
    revert Hw0. apply forallb_impl. intros d Hd.
    rewrite (is_small_not_upper _ Hd). reflexivity. }
  assert (E1 : Str.replace_underscores (w0 ++ capitals ws)
               = w0 ++ capitals ws).
  { apply map_fixed with (p := q).
    - intros c Hc. apply Hq in Hc as (-> & _). reflexivity.
    - rewrite forallb_app, Hq0. simpl. clear E2.
      induction ws as [|[u t] rest IH]; [ reflexivity | ].
      simpl. rewrite <- append_assoc, forallb_app.
      apply andb_true_intro. split.
      + apply Hcat. left. reflexivity.
      + apply IH.
        * simpl in Hall. apply andb_prop in Hall as [_ H]. exact H.
        * intros x Hx. apply Hws. right. exact Hx.
        * intros x Hx. apply Hcat. right. exact Hx. }
  rewrite E1, E2.
  set (p := fun c => q c || Char.is_space c).
  assert (Hp : Str.forallb p (w0 ++ glue " " (List.map cat ws)) = true).
  { rewrite forallb_app. apply andb_true_intro. split.
    - revert Hq0. apply forallb_impl. intros c Hc. unfold p. rewrite Hc.
      reflexivity.
    - apply forallb_glue; [ reflexivity | ].
      intros w Hw. apply Hcat in Hw as [_ Hw]. revert Hw.
      apply forallb_impl. intros c Hc. unfold p. rewrite Hc. reflexivity. }
  unfold Str.strip_special. rewrite (filter_fixed p);
    [ | intros c Hc; unfold p, q in Hc; revert Hc; clear; each_char c
      | exact Hp ].
  unfold Str.toLowerCase. rewrite map_app, map_glue.
  rewrite (map_fixed is_small _ w0);
    [ | intros c Hc; apply to_lower_fixed;
        apply is_small_plain in Hc as (_ & _ & -> & _); reflexivity
      | exact Hw0 ].
  rewrite List.map_map.
  change (Str.map Char.to_lower " ") with " ".
  set (low := List.map (fun w => Str.map Char.to_lower (cat w)) ws).
  assert (Hlow : forall w, In w low ->
            w <> "" /\ Str.forallb is_small w = true).
  { intros w [x [<- Hin]]%in_map_iff.
    destruct (Hcat (cat x) (in_map cat _ _ Hin)) as [Hne Hx]. split.
    - destruct (cat x); [ congruence | discriminate ].
    - revert Hx. apply forallb_map. intros c Hc. apply is_small_to_lower.
      unfold q in Hc. apply orb_prop in Hc. exact Hc. }
  assert (Hnosp : forall w, In w low ->
            w <> "" /\ Str.forallb (fun c => negb (Char.is_space c)) w = true).
  { intros w Hw. apply Hlow in Hw as [Hne Hw]. split; [ exact Hne | ].
    revert Hw. apply forallb_impl. intros c Hc.
    apply is_small_plain in Hc as (_ & _ & _ & -> & _). reflexivity. }
  assert (Hnohy : forall w0', w0' = w0 \/ In w0' low -> w0' <> "" ->
            Str.forallb (fun c => negb (Char.is_hyphen c)) w0' = true).
  { intros x [-> | Hx] _.
    - revert Hw0. apply forallb_impl. intros c Hc.
      apply is_small_plain in Hc as (_ & _ & _ & _ & _ & ->). reflexivity.
    - apply Hlow in Hx as [_ Hx]. revert Hx. apply forallb_impl.
      intros c Hc.
      apply is_small_plain in Hc as (_ & _ & _ & _ & _ & ->). reflexivity. }
  assert (Efix : forall l, (forall w, In w l -> w0 = w \/ In w low) ->
            (forall w, In w l -> w <> "") ->
            Str.strip_edge_hyphens (Str.join "-" l) = Str.join "-" l).
  { intros l Hl Hne.
    assert (Hw : forall w, In w l ->
              w <> "" /\ Str.forallb (fun c => negb (Char.is_hyphen c)) w
                         = true).
    { intros w Hin. split; [ exact (Hne _ Hin) | ].
      apply Hnohy; [ | exact (Hne _ Hin) ].
      destruct (Hl _ Hin) as [<- | H]; [ left | right ]; auto. }
    unfold Str.strip_edge_hyphens. rewrite drop_start_fixed.
    - apply drop_end_fixed. intros c Hc. apply negb_true_iff.
      apply (join_edges _ "-" l c Hw). right. exact Hc.
    - intros c Hc. apply negb_true_iff.
      apply (join_edges _ "-" l c Hw). left. exact Hc. }
  unfold camel_words.
  change (List.map (fun w => Str.toLowerCase (fst w ++ snd w)) ws) with low.
  clearbody low.
  destruct w0 as [|c0 r0] eqn:E0.
  - change (String.length "" =? 0)%nat with true. cbv iota.
    change ("" ++ ?x) with x. rewrite replace_space_runs_glue by exact Hnosp.
    destruct low as [|w rest] eqn:El; [ reflexivity | ].
    simpl glue. change ("-" ++ ?x) with (String "-"%char x).
    rewrite <- join_glue.
    transitivity (Str.strip_edge_hyphens (Str.join "-" (w :: rest)));
      [ reflexivity | ].
    apply Efix.
    + intros x Hx. right. exact Hx.
    + intros x Hx. apply Hlow in Hx as [Hne _]. exact Hne.
  - rewrite <- E0 in *.
    replace (String.length w0 =? 0)%nat with false
      by (subst w0; reflexivity).
    cbv iota. rewrite replace_space_runs_word.
    + rewrite replace_space_runs_glue by exact Hnosp.
      change (List.app [w0] low) with (w0 :: low). rewrite <- join_glue.
      apply Efix.
      * intros x [<- | Hx]; [ left | right ]; auto.
      * intros x [<- | Hx]; [ subst w0; discriminate | ].
        apply Hlow in Hx as [Hne _]. exact Hne.
    + subst w0. discriminate.
    + revert Hw0. apply forallb_impl. intros c Hc.
      apply is_small_plain in Hc as (_ & _ & _ & -> & _). reflexivity.
Qed.

(** ** toDotCase: its words *)

Section DotWords.

Let sep := Char.is_separator.
Let nonempty := fun word : string => (0 <? String.length word)%nat.

(** Whether a match is under way at the start only decides on an empty
    piece at the front. *)
Lemma split_runs_in_run s :
  List.filter nonempty (Str.split_runs sep true s)
  = List.filter nonempty (Str.split_runs sep false s).
Proof.
  destruct s as [|c r]; [ reflexivity | ].
  simpl. destruct (sep c); reflexivity.
Qed.

Lemma dot_words_separator c r :
  sep c = true -> dot_words (String c r) = dot_words r.
Proof.
  intros Hc. unfold dot_words. fold sep nonempty. simpl. rewrite Hc.
  simpl. apply split_runs_in_run.
Qed.

Lemma dot_words_gap g r :
  Str.forallb sep g = true -> dot_words (g ++ r) = dot_words r.
Proof.
  induction g as [|c g' IH]; [ reflexivity | ].
  simpl. intros [Hc Hg']%andb_prop.
  rewrite (dot_words_separator _ _ Hc). exact (IH Hg').
Qed.

Lemma split_runs_gap g :
  Str.forallb sep g = true -> Str.split_runs sep true g = [""].
Proof.
  induction g as [|c g' IH]; [ reflexivity | ].
  simpl. intros [Hc Hg']%andb_prop. rewrite Hc. exact (IH Hg').
Qed.

(** Separators at the end only add an empty piece at the end. *)
Lemma split_runs_end s g in_run :
  Str.forallb sep g = true ->
  exists e, (e = [] \/ e = [""])
            /\ Str.split_runs sep in_run (s ++ g)
               = (Str.split_runs sep in_run s ++ e)%list.
Proof.
  intros Hg. revert in_run. induction s as [|c r IH]; intros in_run.
  - destruct g as [|d g']; [ exists []; auto | ].
    simpl in Hg. apply andb_prop in Hg as [Hd Hg'].
    simpl. rewrite Hd, (split_runs_gap _ Hg').
    destruct in_run; [ exists [] | exists [""] ]; auto.
  - change (String c r ++ g) with (String c (r ++ g)). simpl.
    destruct (sep c).
    + destruct (IH true) as (e & He & ->).
      destruct in_run; exists e; auto.
    + destruct (IH false) as (e & He & ->).
      pose proof (split_runs_not_nil sep r false) as Hnn.
      destruct (Str.split_runs sep false r) as [|w ws]; [ congruence | ].
      exists e. auto.
Qed.

Lemma drop_end_rest p s :
  exists g, Str.forallb p g = true /\ s = Str.drop_end p s ++ g.
Proof.
  induction s as [|c r (g & Hg & E)]; [ exists ""; auto | ].
  simpl. destruct (Str.drop_end p r) as [|d r'] eqn:Er.
  - destruct (p c) eqn:Hc.
    + exists (String c g). simpl. rewrite Hc, Hg, E at 1. auto.
    + exists g. simpl. rewrite E at 1. auto.
  - exists g. split; [ exact Hg | ]. rewrite E at 1. reflexivity.
Qed.

Lemma dot_words_drop_start p s :
  (forall c, p c = true -> sep c = true) ->
  dot_words (Str.drop_start p s) = dot_words s.
Proof.
  intros Hp. induction s as [|c r IH]; [ reflexivity | ].
  simpl. destruct (p c) eqn:Hc; [ | reflexivity ].
  rewrite IH, (dot_words_separator _ _ (Hp _ Hc)). reflexivity.
Qed.

Lemma dot_words_drop_end p s :
  (forall c, p c = true -> sep c = true) ->
  dot_words (Str.drop_end p s) = dot_words s.
Proof.
  intros Hp. destruct (drop_end_rest p s) as (g & Hg & E).
  rewrite E at 2. unfold dot_words. fold sep nonempty.
  destruct (split_runs_end (Str.drop_end p s) g false) as (e & He & ->).
  - revert Hg. apply forallb_impl. exact Hp.
  - rewrite List.filter_app.
    destruct He as [-> | ->]; simpl; rewrite List.app_nil_r; reflexivity.
Qed.

Lemma dot_words_trim s : dot_words (Str.trim s) = dot_words s.
Proof.
  unfold Str.trim.
  rewrite dot_words_drop_end, dot_words_drop_start;
    [ reflexivity | | ]; exact space_is_separator.
Qed.

(** toDotCase is its words in lower case with dots between: [trim] and
    the two tests for nothing left do not change the result. *)
Lemma toDotCase_text_short input :
  toDotCase_text input
  = Str.join "." (List.map Str.toLowerCase (dot_words input)).
Proof.
  rewrite <- dot_words_trim. unfold toDotCase_text.
  destruct (Str.trim input) as [|c r]; [ reflexivity | ].
  change (String.length (String c r) =? 0)%nat with false. cbv iota zeta.
  fold (dot_words (String c r)).
  destruct (dot_words (String c r)); reflexivity.
Qed.

(** A word and then a separator or the end: the word is the first of
    the words. *)
Lemma dot_words_word w r :
  plain_word w = true ->
  (forall c, Str.first r = Some c -> sep c = true) ->
  dot_words (w ++ r) = w :: dot_words r.
Proof.
  unfold plain_word. intros [Hlen Hw]%andb_prop Hr.
  unfold dot_words. fold sep nonempty.
  destruct r as [|d r'].
  - rewrite append_empty, split_runs_word by exact Hw.
    simpl. unfold nonempty at 1. rewrite Hlen. reflexivity.
  - rewrite split_runs_app by (exact Hw || exact (Hr d eq_refl)).
    simpl. unfold nonempty at 1. rewrite Hlen.
    rewrite (Hr d eq_refl). simpl. reflexivity.
Qed.

Lemma dot_words_joined g ws post :
  separator_run g = true -> List.forallb plain_word ws = true ->
  Str.forallb sep post = true ->
  dot_words (Str.join g ws ++ post) = ws.
Proof.
  unfold separator_run. intros [Hlen Hg]%andb_prop Hall Hpost.
  assert (Hnil : dot_words post = []).
  { rewrite <- (append_empty post), dot_words_gap by exact Hpost.
    reflexivity. }
  assert (Hfirst : forall c, Str.first post = Some c -> sep c = true).
  { intros c Hc. exact (forallb_first _ _ _ Hpost Hc). }
  induction ws as [|w rest IH]; [ exact Hnil | ].
  simpl in Hall. apply andb_prop in Hall as [Hw Hrest].
  destruct rest as [|w' rest].
  - simpl. rewrite dot_words_word, Hnil by assumption. reflexivity.
  - rewrite join_cons, !append_assoc, dot_words_word.
    + rewrite dot_words_gap by exact Hg. rewrite (IH Hrest). reflexivity.
    + exact Hw.
    + intros c Hc. destruct g as [|d g']; [ discriminate | ].
      simpl in Hc, Hg. injection Hc as <-.
      apply andb_prop in Hg as [Hd _]. exact Hd.
Qed.

End DotWords.

(** Words with a run of separators between each two, separators before
    and after: the words in lower case with a dot between each two. *)
Lemma toDotCase_text_joined pre g ws post :
  Str.forallb Char.is_separator pre = true ->
  separator_run g = true -> List.forallb plain_word ws = true ->
  Str.forallb Char.is_separator post = true ->
  toDotCase_text (pre ++ Str.join g ws ++ post)
  = Str.join "." (List.map Str.toLowerCase ws).
Proof.
  intros Hpre Hg Hws Hpost.
  rewrite toDotCase_text_short, dot_words_gap by exact Hpre.
  rewrite dot_words_joined by assumption. reflexivity.
Qed.

(** The output is empty exactly when the input is made of separators. *)
Lemma toDotCase_text_empty input :
  toDotCase_text input = "" <-> Str.forallb Char.is_separator input = true.
Proof.
  split; intros H.
  - pose proof (toDotCase_text_content input) as Hc. rewrite H in Hc.
    symmetry in Hc. apply map_empty, filter_empty in Hc.
    revert Hc. apply forallb_impl. intros c Hc.
    apply negb_true_iff in Hc. apply negb_false_iff in Hc. exact Hc.
  - rewrite toDotCase_text_short.
    rewrite <- (append_empty input), dot_words_gap by exact H.
    reflexivity.
Qed.

(** ** toKebabCase after toDotCase *)

Lemma filter_ext_on p f g s :
  (forall c, p c = true -> f c = g c) ->
  Str.forallb p s = true -> Str.filter f s = Str.filter g s.
Proof.
  intros Hfg. induction s as [|c r IH]; [ reflexivity | ].
  simpl. intros [Hc Hr]%andb_prop. rewrite (Hfg _ Hc), (IH Hr).
  reflexivity.
Qed.

Lemma dot_char_plain c :
  dot_char c = true ->
  Char.is_underscore c = false /\ Char.is_upper c = false
  /\ Char.is_space c = false /\ Char.is_hyphen c = false
  /\ Char.is_uppercase c = false
  /\ negb (Char.is_special c) = is_alnum c.
Proof. each_char c; intros _; repeat split. Qed.

(** The dots are no word boundary for toKebabCase: of the output of
    toDotCase it keeps the letters and digits, and nothing else. *)
Lemma toKebabCase_text_toDotCase_text input :
  toKebabCase_text (toDotCase_text input)
  = Str.filter is_alnum (toDotCase_text input).
Proof.
  assert (Hy : Str.forallb dot_char (toDotCase_text input) = true).
  { destruct (toDotCase_text_words input) as (ws & -> & Hws).
    apply joined_chars, Hws. }
  set (y := toDotCase_text input) in *.
  rewrite toKebabCase_text_short. unfold toKebabCase_short.
  unfold Str.replace_underscores. rewrite (map_fixed dot_char)
    by (exact Hy || (intros c Hc; apply dot_char_plain in Hc as (-> & _);
                     reflexivity)).
  rewrite space_upper_runs_fixed
    by (revert Hy; apply forallb_impl; intros c Hc;
        apply dot_char_plain in Hc as (_ & -> & _); reflexivity).
  unfold Str.strip_special.
  rewrite (filter_ext_on dot_char _ is_alnum)
    by (exact Hy || (intros c Hc; apply dot_char_plain in Hc;
                     apply Hc)).
  assert (Hz : Str.forallb dot_char (Str.filter is_alnum y) = true)
    by (apply forallb_filter_keeps; exact Hy).
  set (z := Str.filter is_alnum y) in *.
  unfold Str.toLowerCase. rewrite (map_fixed dot_char)
    by (exact Hz || (intros c Hc; apply to_lower_fixed;
                     apply dot_char_plain in Hc as (_ & _ & _ & _ & -> & _);
                     reflexivity)).
  rewrite replace_space_runs_fixed
    by (revert Hz; apply forallb_impl; intros c Hc;
        apply dot_char_plain in Hc as (_ & _ & -> & _); reflexivity).
  assert (Hh : Str.forallb (fun c => negb (Char.is_hyphen c)) z = true).
  { revert Hz. apply forallb_impl. intros c Hc.
    apply dot_char_plain in Hc as (_ & _ & _ & -> & _). reflexivity. }
  unfold Str.strip_edge_hyphens. rewrite drop_start_fixed.
  - apply drop_end_fixed. intros c Hc. apply negb_true_iff.
    exact (forallb_last _ _ _ Hh Hc).
  - intros c Hc. apply negb_true_iff. exact (forallb_first _ _ _ Hh Hc).
Qed.

(** ** toKebabCase: where two hyphens in a row come from *)

Lemma has_double_first d a r :
  Str.has_double d (String a r)
  = (Ascii.eqb a d
     && match Str.first r with Some b => Ascii.eqb b d | None => false end)
    || Str.has_double d r.
Proof. destruct r; simpl; [ rewrite andb_false_r | ]; reflexivity. Qed.

Lemma has_double_drop_start d p s :
  Str.has_double d s = false -> Str.has_double d (Str.drop_start p s) = false.
Proof.
  induction s as [|c r IH]; [ reflexivity | ].
  intros H. simpl. destruct (p c); [ | exact H ].
  apply IH. rewrite has_double_first in H.
  apply orb_false_elim in H as [_ H]. exact H.
Qed.

Lemma has_double_drop_end d p s :
  Str.has_double d s = false -> Str.has_double d (Str.drop_end p s) = false.
Proof.
  induction s as [|c r IH]; [ reflexivity | ].
  rewrite has_double_first. intros [Hc Hr]%orb_false_elim.
  specialize (IH Hr). simpl.
  pose proof (first_drop_end p r) as Hf.
  destruct (Str.drop_end p r) as [|x r'].
  - destruct (p c); reflexivity.
  - rewrite has_double_first, IH, orb_false_r. cbn [Str.first].
    rewrite (Hf x eq_refl) in Hc. exact Hc.
Qed.

Lemma replace_space_runs_first d s x :
  Str.forallb (fun c => negb (Ascii.eqb c d)) s = true ->
  Str.first (Str.replace_space_runs d true s) = Some x ->
  Ascii.eqb x d = false.
Proof.
  induction s as [|c r IH]; [ discriminate | ].
  simpl. intros [Hc Hr]%andb_prop.
  destruct (Char.is_space c); [ exact (IH Hr) | ].
  simpl. intros [= <-]. apply negb_true_iff. exact Hc.
Qed.

Lemma replace_space_runs_no_double d s in_run :
  Str.forallb (fun c => negb (Ascii.eqb c d)) s = true ->
  Str.has_double d (Str.replace_space_runs d in_run s) = false.
Proof.
  revert in_run. induction s as [|c r IH]; intros in_run; [ reflexivity | ].
  simpl. intros [Hc Hr]%andb_prop. apply negb_true_iff in Hc.
  destruct (Char.is_space c).
  - destruct in_run; [ exact (IH _ Hr) | ].
    rewrite has_double_first, (IH _ Hr), orb_false_r.
    pose proof (replace_space_runs_first d r) as Hf.
    destruct (Str.first (Str.replace_space_runs d true r)) as [x|];
      [ | apply andb_false_r ].
    rewrite (Hf x Hr eq_refl). apply andb_false_r.
  - rewrite has_double_cons by exact Hc. exact (IH _ Hr).
Qed.

Lemma not_hyphen_to_lower c :
  negb (Ascii.eqb c "-") = true -> negb (Ascii.eqb (Char.to_lower c) "-") = true.
Proof. each_char c. Qed.

(** An input without a hyphen gives an output without two hyphens in a
    row. *)
Lemma toKebabCase_text_no_double input :
  Str.mem "-" input = false ->
  Str.has_double "-" (toKebabCase_text input) = false.
Proof.
  intros Hm.
  assert (H : Str.forallb (fun c => negb (Ascii.eqb c "-")) input = true).
  { induction input as [|c r IH]; [ reflexivity | ].
    simpl in *. apply orb_false_elim in Hm as [-> Hr]. exact (IH Hr). }
  rewrite toKebabCase_text_short. unfold toKebabCase_short.
  unfold Str.strip_edge_hyphens.
  apply has_double_drop_end, has_double_drop_start.
  apply replace_space_runs_no_double.
  unfold Str.toLowerCase.
  apply forallb_map with (p := fun c => negb (Ascii.eqb c "-"));
    [ exact not_hyphen_to_lower | ].
  apply forallb_filter_keeps.
  apply forallb_space_upper_runs; [ reflexivity | ].
  unfold Str.replace_underscores. revert H. apply forallb_map.
  intros c Hc. destruct (Char.is_underscore c); [ reflexivity | exact Hc ].
Qed.

(** * Further properties, as stated for the functions *)

(** X1.  toKebabCase gives for every string what its short form gives:
    the test for the empty string (lines 24-26), the space put between a
    lower case and an upper case letter (line 34), [trim] (line 37) and
    the collapsing of white space (line 40) do not change the result. *)
Theorem toKebabCase_redundant_steps (input : string) :
  toKebabCase (VString input)
  = Run [] (Return (VString (toKebabCase_short input))).
Proof. simpl. rewrite toKebabCase_text_short. reflexivity. Qed.

(** X2.  toKebabCase keeps the ASCII letters and digits of its input, in
    their order and in lower case, and adds none: the letters and digits
    of the output are those of the input in lower case. *)
Theorem toKebabCase_keeps_letters_and_digits (input : string) :
  exists out,
    toKebabCase (VString input) = Run [] (Return (VString out))
    /\ Str.filter is_alnum out = Str.toLowerCase (Str.filter is_alnum input).
Proof.
  exists (toKebabCase_text input). split; [ reflexivity | ].
  apply toKebabCase_text_content.
Qed.

(** X3.  toKebabCase returns the empty string exactly for the strings
    with no ASCII letter and no digit in them. *)
Theorem toKebabCase_empty_output (input : string) :
  toKebabCase (VString input) = Run [] (Return (VString ""))
  <-> Str.filter is_alnum input = "".
Proof.
  rewrite <- toKebabCase_text_empty. simpl. split.
  - intros [= H]. exact H.
  - intros ->. reflexivity.
Qed.

(** X4.  toKebabCase returns a string in kebab case (lower case letters,
    digits and hyphens, no hyphen at either end) as it is. *)
Theorem toKebabCase_kebab_input (y : string) :
  is_kebab y = true ->
  toKebabCase (VString y) = Run [] (Return (VString y)).
Proof.
  unfold is_kebab. intros [[Hy Hf]%andb_prop Hl]%andb_prop.
  simpl. rewrite toKebabCase_text_fixed; [ reflexivity | exact Hy | ].
  intros c [Hc | Hc]; [ rewrite Hc in Hf | rewrite Hc in Hl ];
    apply negb_true_iff; assumption.
Qed.

Lemma toKebabCase_kebab_input_witness :
  is_kebab "hello-world-2" = true
  /\ toKebabCase (VString "hello-world-2")
     = Run [] (Return (VString "hello-world-2")).
Proof.
  split; [ reflexivity | ].
  apply (toKebabCase_kebab_input "hello-world-2"). reflexivity.
Defined.

(** X5.  Words of lower case letters and digits with one and the same
    run of white space and underscores between each two come out with
    one hyphen between each two. *)
Theorem toKebabCase_words (g : string) (ws : list string) :
  blank_run g = true -> List.forallb small_word ws = true ->
  toKebabCase (VString (Str.join g ws))
  = Run [] (Return (VString (Str.join "-" ws))).
Proof.
  intros Hg Hws. simpl. rewrite toKebabCase_text_joined by assumption.
  reflexivity.
Qed.

Lemma toKebabCase_words_witness :
  blank_run " _ " = true
  /\ List.forallb small_word ["foo"; "bar2"; "baz"] = true
  /\ toKebabCase (VString (Str.join " _ " ["foo"; "bar2"; "baz"]))
     = Run [] (Return (VString (Str.join "-" ["foo"; "bar2"; "baz"]))).
Proof.
  split; [ reflexivity | split; [ reflexivity | ] ].
  apply (toKebabCase_words " _ " ["foo"; "bar2"; "baz"]); reflexivity.
Defined.

(** X6.  A camel case or Pascal case identifier, a first word of lower
    case letters and digits (or none) and then words made of a run of
    upper case letters and of lower case letters and digits, comes out
    as its words in lower case with a hyphen between each two; a run of
    upper case letters stays in one word with what follows it. *)
Theorem toKebabCase_camel_case (w0 : string) (ws : list (string * string)) :
  Str.forallb is_small w0 = true -> List.forallb capital_word ws = true ->
  toKebabCase (VString (w0 ++ capitals ws))
  = Run [] (Return (VString (Str.join "-" (camel_words w0 ws)))).
Proof.
  intros Hw0 Hws. simpl. rewrite toKebabCase_text_camel by assumption.
  reflexivity.
Qed.

Lemma toKebabCase_camel_case_witness :
  Str.forallb is_small "parse" = true
  /\ List.forallb capital_word [("HTTPR", "esponse"); ("B", "ody2")] = true
  /\ toKebabCase (VString "parseHTTPResponseBody2")
     = Run [] (Return (VString "parse-httpresponse-body2")).
Proof.
  split; [ reflexivity | split; [ reflexivity | ] ].
  apply (toKebabCase_camel_case "parse"
           [("HTTPR", "esponse"); ("B", "ody2")]); reflexivity.
Defined.

(** X7.  For an input with no hyphen in it the output of toKebabCase has
    no two hyphens in a row. *)
Theorem toKebabCase_single_hyphens (input : string) :
  Str.mem "-" input = false ->
  exists out,
    toKebabCase (VString input) = Run [] (Return (VString out))
    /\ Str.has_double "-" out = false.
Proof.
  intros H. exists (toKebabCase_text input). split; [ reflexivity | ].
  apply toKebabCase_text_no_double. exact H.
Qed.

Lemma toKebabCase_single_hyphens_witness :
  Str.mem "-" "Hello  World_foo" = false
  /\ exists out,
       toKebabCase (VString "Hello  World_foo")
       = Run [] (Return (VString out))
       /\ Str.has_double "-" out = false.
Proof.
  split; [ reflexivity | ].
  apply (toKebabCase_single_hyphens "Hello  World_foo"). reflexivity.
Defined.

(** X8.  toDotCase gives for every string the pieces between its runs of
    separators that are not empty, in lower case, with dots between:
    [trim] and the two tests for nothing left do not change the
    result. *)
Theorem toDotCase_redundant_steps (input : string) :
  toDotCase (VString input)
  = Return (VString
      (Str.join "." (List.map Str.toLowerCase (dot_words input)))).
Proof. simpl. rewrite toDotCase_text_short. reflexivity. Qed.

(** X9.  Words without separators, of any case, with one and the same
    run of separators between each two, and separators before and after
    them, come out in lower case with one dot between each two; a word
    is not split where its case changes. *)
Theorem toDotCase_words (pre g : string) (ws : list string) (post : string) :
  Str.forallb Char.is_separator pre = true ->
  separator_run g = true -> List.forallb plain_word ws = true ->
  Str.forallb Char.is_separator post = true ->
  toDotCase (VString (pre ++ Str.join g ws ++ post))
  = Return (VString (Str.join "." (List.map Str.toLowerCase ws))).
Proof.
  intros Hpre Hg Hws Hpost. simpl.
  rewrite toDotCase_text_joined by assumption. reflexivity.
Qed.

Lemma toDotCase_words_witness :
  Str.forallb Char.is_separator "--" = true
  /\ separator_run ", " = true
  /\ List.forallb plain_word ["Hello"; "wOrld"; "a+b"] = true
  /\ Str.forallb Char.is_separator "!" = true
  /\ toDotCase (VString "--Hello, wOrld, a+b!")
     = Return (VString "hello.world.a+b").
Proof.
  repeat (split; [ reflexivity | ]).
  apply (toDotCase_words "--" ", " ["Hello"; "wOrld"; "a+b"] "!");
    reflexivity.
Defined.

(** X10.  toDotCase returns the empty string exactly for the strings
    made of separators only (white space, hyphens, underscores,
    punctuation), the empty string among them. *)
Theorem toDotCase_empty_output (input : string) :
  toDotCase (VString input) = Return (VString "")
  <-> Str.forallb Char.is_separator input = true.
Proof.
  rewrite <- toDotCase_text_empty. simpl. split.
  - intros [= H]. exact H.
  - intros ->. reflexivity.
Qed.

(** X12.  toKebabCase does not take the output of toDotCase apart: the
    dots are no word boundary for it, and it returns the letters and
    digits of that output, all in one word. *)
Theorem toKebabCase_after_toDotCase (input : string) :
  exists d,
    toDotCase (VString input) = Return (VString d)
    /\ toKebabCase (VString d)
       = Run [] (Return (VString (Str.filter is_alnum d))).
Proof.
  exists (toDotCase_text input). split; [ reflexivity | ].
  simpl. rewrite toKebabCase_text_toDotCase_text. reflexivity.
Qed.
